(** * Kudu: consensus metadata and the rowset tree

    A shallow embedding of [src/kudu/consensus/consensus_meta.cc] and
    [src/tablet/rowset_tree.cc], with the properties the specification
    states about them.

    Conventions of the embedding:
    - [uint64_t] and [int64_t] values are integers of [Z]; every conversion
      between the two that the C++ performs implicitly is written out with
      [to_uint64] and [to_int64];
    - [RaftPeerPB::Role] is the integer behind the enum, which is what the
      packed word stores; the other enums are inductive types;
    - [LOG(FATAL)] and a failed [CHECK] end the process: operations that can
      reach one return a [Result];
    - a [DCHECK] is a [CHECK] in debug builds and nothing in release builds:
      the build is the parameter [DCHECK_IS_ON]. *)

From Stdlib Require Import ZArith Lia Bool List String Ascii.
From Stdlib Require Import Permutation QArith_base.
From stdpp Require Import base gmap.
Import ListNotations.

#[local] Set Warnings "-clear-no-such-hyp".

Open Scope string_scope.
Open Scope Z_scope.

(** ** Outcomes of operations that may abort the process *)

Inductive Result (A : Type) : Type :=
| Ok (a : A)
| Fatal (msg : string).
Arguments Ok {A} a.
Arguments Fatal {A} msg.

#[global] Instance Result_ret : MRet Result := fun A a => Ok a.

#[global] Instance Result_bind : MBind Result := fun A B k m =>
  match m with
  | Ok a => k a
  | Fatal msg => Fatal msg
  end.

(** [CHECK(c) << msg]. *)
Definition CHECK (c : bool) (msg : string) : Result unit :=
  if c then Ok tt else Fatal msg.

(** [DCHECK(c)]: compiled out unless the build has DCHECKs on. *)
Definition DCHECK (DCHECK_IS_ON : bool) (c : bool) (msg : string) : Result unit :=
  if DCHECK_IS_ON then CHECK c msg else Ok tt.

Lemma bind_Ok_inv {A B : Type} (m : Result A) (k : A -> Result B) (b : B) :
  m ≫= k = Ok b -> exists a, m = Ok a /\ k a = Ok b.
Proof. destruct m as [a|msg]; simpl; [eauto | discriminate]. Qed.

Lemma CHECK_Ok (c : bool) (msg : string) : CHECK c msg = Ok tt <-> c = true.
Proof. destruct c; simpl; split; congruence. Qed.

Lemma DCHECK_Ok_true (d : bool) (msg : string) : DCHECK d true msg = Ok tt.
Proof. destruct d; reflexivity. Qed.

Lemma DCHECK_Ok (d c : bool) (msg : string) :
  DCHECK d c msg = Ok tt <-> (d = true -> c = true).
Proof.
  destruct d, c; simpl; split; intros H; try reflexivity; try discriminate.
  specialize (H eq_refl). discriminate.
Qed.

(** ** Machine integers *)

Definition to_uint64 (z : Z) : Z := z mod 2 ^ 64.

Definition to_int64 (z : Z) : Z :=
  let u := z mod 2 ^ 64 in
  if u <? 2 ^ 63 then u else u - 2 ^ 64.

Definition is_int64 (z : Z) : Prop := - 2 ^ 63 <= z < 2 ^ 63.

(** ** Status *)

(** Modelled from the spec: the codes of [kudu::Status] (util/status.h is not
    part of the sources embedded here), the error kinds the specification
    lists. *)
Inductive StatusCode : Type :=
| kOk | kAlreadyPresent | kInvalidArgument | kCorruption | kIOError
| kNotSupported.

(** Modelled from the spec: [kudu::Status], a code and a message. *)
Record Status : Type := mkStatus { code : StatusCode; message : string }.

Definition Status_OK : Status := mkStatus kOk "".

Definition ok (s : Status) : bool :=
  match code s with kOk => true | _ => false end.

Definition IsNotSupported (s : Status) : bool :=
  match code s with kNotSupported => true | _ => false end.

(** Modelled from the spec: [Status::CloneAndPrepend], what
    [RETURN_NOT_OK_PREPEND(s, msg)] returns when [s] is an error: the error
    "surfaced to the caller with a context prefix". *)
Definition CloneAndPrepend (msg : string) (s : Status) : Status :=
  if ok s then s else mkStatus (code s) (msg ++ ": " ++ message s).

(** ** The packed (role, term) word *)

Module PackedCache.

(** [RaftPeerPB::Role] is an enum over [int]. *)
Definition Role := Z.

(** Modelled from the spec: the enumerator [RaftPeerPB::UNKNOWN_ROLE] of
    metadata.pb.h, which is not part of the sources embedded here; "the
    constant 999 defined in the proto file for UNKNOWN_ROLE"
    (consensus_meta.cc, PackRoleAndTerm). *)
Definition UNKNOWN_ROLE : Role := 999.

Definition kPackedRoleBits : Z := 3.
Definition kPackedTermBits : Z := 8 * 8 - kPackedRoleBits.
Definition kUnknownRolePacked : Z := to_uint64 (Z.shiftl 1 kPackedRoleBits) - 1.
Definition kRoleMask : Z := to_uint64 (Z.shiftl kUnknownRolePacked kPackedTermBits).
Definition kTermMask : Z := to_uint64 (Z.lnot kRoleMask).

Definition PackRoleAndTerm (role : Role) (term : Z) : Z :=
  let term :=
    if negb (Z.land (to_uint64 term) kRoleMask =? 0)
    then to_int64 kTermMask
    else term in
  let r :=
    if role =? UNKNOWN_ROLE then kUnknownRolePacked else to_uint64 role in
  Z.lor (to_uint64 (Z.shiftl r kPackedTermBits)) (to_uint64 term).

Definition UnpackRole (role_and_term_packed : Z) : Role :=
  let role := Z.shiftr role_and_term_packed kPackedTermBits in
  if role =? kUnknownRolePacked then UNKNOWN_ROLE else role.

Definition UnpackTerm (role_and_term_packed : Z) : Result Z :=
  let t := Z.land role_and_term_packed kTermMask in
  if t =? kTermMask then Fatal "packed term is invalid"
  else Ok (to_int64 t).

(** The two fields of a packed word, as the layout comment draws them:
    bits 0..60 hold the term, bits 61..63 the role. *)
Definition term_field (w : Z) : Z := Z.land w kTermMask.
Definition role_field (w : Z) : Z := Z.shiftr w kPackedTermBits.

(** The roles the three role bits can hold besides [UNKNOWN_ROLE]. *)
Definition known_role (r : Role) : Prop := 0 <= r <= 6.

Definition packable_role (r : Role) : Prop := known_role r \/ r = UNKNOWN_ROLE.

(** The terms that survive packing. *)
Definition packable_term (t : Z) : Prop := 0 <= t <= 2 ^ 61 - 2.

(** *** Bit-level facts *)

Lemma land_shiftl_mask (t m n : Z) :
  0 <= n -> Z.land t (Z.shiftl m n) = Z.shiftl (Z.land (Z.shiftr t n) m) n.
Proof.
  intros Hn. apply Z.bits_inj'. intros k Hk.
  rewrite Z.land_spec.
  destruct (Z.lt_ge_cases k n) as [Hlt|Hge].
  - rewrite !Z.shiftl_spec_low by lia. apply andb_false_r.
  - rewrite !Z.shiftl_spec by lia. rewrite Z.land_spec, Z.shiftr_spec by lia.
    replace (k - n + n) with k by lia. reflexivity.
Qed.

Lemma lor_shiftl_shiftr (r t n : Z) :
  0 <= n -> 0 <= t < 2 ^ n -> Z.shiftr (Z.lor (Z.shiftl r n) t) n = r.
Proof.
  intros Hn Ht. rewrite Z.shiftr_lor, Z.shiftr_shiftl_l by lia.
  rewrite Z.sub_diag, Z.shiftl_0_r.
  rewrite (Z.shiftr_div_pow2 t) by lia.
  rewrite Z.div_small by lia. apply Z.lor_0_r.
Qed.

Lemma lor_shiftl_land_ones (r t n : Z) :
  0 <= n -> 0 <= t < 2 ^ n -> Z.land (Z.lor (Z.shiftl r n) t) (Z.ones n) = t.
Proof.
  intros Hn Ht. rewrite Z.land_lor_distr_l, !Z.land_ones by lia.
  rewrite Z.shiftl_mul_pow2, Z.mod_mul by lia.
  rewrite Z.mod_small by lia. reflexivity.
Qed.

Lemma kPackedTermBits_val : kPackedTermBits = 61.
Proof. reflexivity. Qed.

Lemma kUnknownRolePacked_val : kUnknownRolePacked = 7.
Proof. reflexivity. Qed.

Lemma kRoleMask_val : kRoleMask = Z.shiftl 7 61.
Proof. reflexivity. Qed.

Lemma kTermMask_val : kTermMask = Z.ones 61.
Proof. reflexivity. Qed.

(** The static assertions of the source. *)
Lemma masks_cover : Z.lor kRoleMask kTermMask = 2 ^ 64 - 1.
Proof. reflexivity. Qed.

Lemma masks_disjoint : Z.land kTermMask kRoleMask = 0.
Proof. reflexivity. Qed.

Lemma to_uint64_range (z : Z) : 0 <= to_uint64 z < 2 ^ 64.
Proof. unfold to_uint64. apply Z.mod_pos_bound. lia. Qed.

Lemma to_uint64_small (z : Z) : 0 <= z < 2 ^ 64 -> to_uint64 z = z.
Proof. intros H. unfold to_uint64. apply Z.mod_small. exact H. Qed.

Lemma to_int64_small (z : Z) : 0 <= z < 2 ^ 63 -> to_int64 z = z.
Proof.
  intros H. unfold to_int64. rewrite Z.mod_small by lia.
  destruct (Z.ltb_spec z (2 ^ 63)); lia.
Qed.

(** The overflow test of [PackRoleAndTerm] looks at bits 61..63 only. *)
Lemma role_mask_test (u : Z) :
  0 <= u < 2 ^ 64 -> (Z.land u kRoleMask =? 0) = (u <? 2 ^ 61).
Proof.
  intros Hu. rewrite kRoleMask_val, land_shiftl_mask by lia.
  change 7 with (Z.ones 3). rewrite Z.land_ones by lia.
  rewrite Z.shiftr_div_pow2, Z.shiftl_mul_pow2 by lia.
  assert (Hq : 0 <= u / 2 ^ 61 < 2 ^ 3).
  { split; [apply Z.div_pos; lia | apply Z.div_lt_upper_bound; lia]. }
  rewrite Z.mod_small by exact Hq.
  destruct (Z.ltb_spec u (2 ^ 61)) as [Hlt|Hge].
  - rewrite Z.div_small by lia. reflexivity.
  - apply Z.eqb_neq. assert (1 <= u / 2 ^ 61) by (apply Z.div_le_lower_bound; lia).
    lia.
Qed.

(** The role value that goes into the top three bits. *)
Definition packed_role (role : Role) : Z :=
  if role =? UNKNOWN_ROLE then kUnknownRolePacked else to_uint64 role.

(** The term value that goes into the low 61 bits. *)
Definition packed_term (term : Z) : Z :=
  if to_uint64 term <? 2 ^ 61 then to_uint64 term else kTermMask.

Lemma packed_term_range (term : Z) : 0 <= packed_term term < 2 ^ 61.
Proof.
  unfold packed_term. pose proof (to_uint64_range term).
  destruct (Z.ltb_spec (to_uint64 term) (2 ^ 61)); [lia|].
  rewrite kTermMask_val. change (Z.ones 61) with (2 ^ 61 - 1). lia.
Qed.

Lemma shiftl_role_wrap (r : Z) :
  to_uint64 (Z.shiftl r kPackedTermBits) = Z.shiftl (r mod 8) 61.
Proof.
  unfold to_uint64. rewrite kPackedTermBits_val, !Z.shiftl_mul_pow2 by lia.
  change (2 ^ 64) with (8 * 2 ^ 61).
  rewrite Z.mul_mod_distr_r by lia. reflexivity.
Qed.

Lemma PackRoleAndTerm_layout (role : Role) (term : Z) :
  PackRoleAndTerm role term =
  Z.lor (Z.shiftl (packed_role role mod 8) 61) (packed_term term).
Proof.
  unfold PackRoleAndTerm. fold (packed_role role).
  rewrite shiftl_role_wrap. f_equal.
  rewrite role_mask_test by apply to_uint64_range.
  unfold packed_term.
  destruct (Z.ltb_spec (to_uint64 term) (2 ^ 61)) as [Hlt|Hge]; simpl.
  - reflexivity.
  - reflexivity.
Qed.

Lemma term_field_Pack (role : Role) (term : Z) :
  term_field (PackRoleAndTerm role term) = packed_term term.
Proof.
  unfold term_field. rewrite PackRoleAndTerm_layout, kTermMask_val.
  apply lor_shiftl_land_ones; [lia | apply packed_term_range].
Qed.

Lemma role_field_Pack (role : Role) (term : Z) :
  role_field (PackRoleAndTerm role term) = packed_role role mod 8.
Proof.
  unfold role_field. rewrite PackRoleAndTerm_layout, kPackedTermBits_val.
  apply lor_shiftl_shiftr; [lia | apply packed_term_range].
Qed.

Lemma Pack_range (role : Role) (term : Z) :
  0 <= PackRoleAndTerm role term < 2 ^ 64.
Proof.
  rewrite PackRoleAndTerm_layout.
  pose proof (packed_term_range term) as Ht.
  assert (Hr : 0 <= packed_role role mod 8 < 8) by (apply Z.mod_pos_bound; lia).
  set (r := packed_role role mod 8) in *. set (t := packed_term term) in *.
  assert (Hs : Z.shiftl r 61 = r * 2 ^ 61) by (apply Z.shiftl_mul_pow2; lia).
  split.
  - apply Z.lor_nonneg. rewrite Hs. lia.
  - destruct (Z.eq_dec (Z.lor (Z.shiftl r 61) t) 0) as [->|Hne]; [lia|].
    apply Z.log2_lt_pow2.
    + assert (0 <= Z.lor (Z.shiftl r 61) t) by (apply Z.lor_nonneg; lia). lia.
    + rewrite Z.log2_lor by lia.
      apply Z.max_lub_lt.
      * destruct (Z.eq_dec r 0) as [->|]; [simpl; lia|].
        apply Z.log2_lt_pow2; lia.
      * destruct (Z.eq_dec t 0) as [->|]; [simpl; lia|].
        apply Z.log2_lt_pow2; lia.
Qed.

Lemma UnpackRole_Pack (role : Role) (term : Z) :
  packable_role role -> UnpackRole (PackRoleAndTerm role term) = role.
Proof.
  intros Hr. unfold UnpackRole. fold (role_field (PackRoleAndTerm role term)).
  rewrite role_field_Pack. unfold packed_role, UNKNOWN_ROLE in *.
  destruct Hr as [Hk | ->].
  - unfold known_role in Hk.
    destruct (Z.eqb_spec role 999) as [->|_]; [lia|].
    rewrite to_uint64_small by lia. rewrite Z.mod_small by lia.
    rewrite kUnknownRolePacked_val.
    destruct (Z.eqb_spec role 7); [lia | reflexivity].
  - reflexivity.
Qed.

Lemma UnpackTerm_Pack (role : Role) (term : Z) :
  UnpackTerm (PackRoleAndTerm role term) =
  if packed_term term =? kTermMask
  then Fatal "packed term is invalid"
  else Ok (packed_term term).
Proof.
  unfold UnpackTerm. fold (term_field (PackRoleAndTerm role term)).
  rewrite term_field_Pack.
  destruct (packed_term term =? kTermMask); [reflexivity|].
  rewrite to_int64_small; [reflexivity|].
  pose proof (packed_term_range term). lia.
Qed.

Lemma packed_term_packable (term : Z) :
  packable_term term -> packed_term term = term /\ term <> kTermMask.
Proof.
  unfold packable_term, packed_term. intros H.
  rewrite to_uint64_small by lia.
  destruct (Z.ltb_spec term (2 ^ 61)); [|lia].
  rewrite kTermMask_val. change (Z.ones 61) with (2 ^ 61 - 1). lia.
Qed.

Lemma packed_term_unpackable (term : Z) :
  is_int64 term -> ~ packable_term term -> packed_term term = kTermMask.
Proof.
  unfold is_int64, packable_term, packed_term, to_uint64. intros Hi Hn.
  rewrite kTermMask_val. change (Z.ones 61) with (2 ^ 61 - 1).
  destruct (Z.lt_ge_cases term 0) as [Hneg|Hpos].
  - replace (term mod 2 ^ 64) with (term + 2 ^ 64).
    + destruct (Z.ltb_spec (term + 2 ^ 64) (2 ^ 61)); [lia | reflexivity].
    + apply Z.mod_unique with (q := -1); lia.
  - rewrite Z.mod_small by lia.
    destruct (Z.ltb_spec term (2 ^ 61)); [lia | reflexivity].
Qed.

(** *** The round trip and the sentinel *)

(** C2. Packing a role of the known set or [UNKNOWN_ROLE] with a term of
    [0, 2^61 - 2] and unpacking gives back the role and the term. *)
Theorem PackRoleAndTerm_roundtrip (role : Role) (term : Z) :
  packable_role role ->
  0 <= term <= 2 ^ 61 - 2 ->
  UnpackRole (PackRoleAndTerm role term) = role /\
  UnpackTerm (PackRoleAndTerm role term) = Ok term.
Proof.
  intros Hr Ht. split.
  - apply UnpackRole_Pack. exact Hr.
  - rewrite UnpackTerm_Pack.
    destruct (packed_term_packable term Ht) as [-> Hne].
    destruct (Z.eqb_spec term kTermMask); [contradiction | reflexivity].
Qed.

Lemma PackRoleAndTerm_roundtrip_witness :
  UnpackRole (PackRoleAndTerm 1 42) = 1 /\
  UnpackTerm (PackRoleAndTerm 1 42) = Ok 42.
Proof.
  apply (PackRoleAndTerm_roundtrip 1 42).
  - left. unfold known_role. lia.
  - lia.
Defined.

(** C3. A term of [2^61 - 1] or more is packed without a crash, as the
    sentinel [(1 << 61) - 1] in the term field; and [UnpackTerm] is fatal on
    every word whose term field is the sentinel, that one included. *)
Theorem PackRoleAndTerm_sentinel (role : Role) (term : Z) :
  2 ^ 61 - 1 <= term < 2 ^ 63 ->
  term_field (PackRoleAndTerm role term) = Z.shiftl 1 61 - 1 /\
  UnpackTerm (PackRoleAndTerm role term) = Fatal "packed term is invalid" /\
  (forall w, term_field w = Z.shiftl 1 61 - 1 ->
             UnpackTerm w = Fatal "packed term is invalid").
Proof.
  intros Ht.
  assert (Hs : forall w, term_field w = Z.shiftl 1 61 - 1 ->
                         UnpackTerm w = Fatal "packed term is invalid").
  { intros w Hw. unfold UnpackTerm. fold (term_field w). rewrite Hw. reflexivity. }
  assert (Hf : term_field (PackRoleAndTerm role term) = Z.shiftl 1 61 - 1).
  { rewrite term_field_Pack. unfold packed_term.
    rewrite to_uint64_small by lia.
    destruct (Z.ltb_spec term (2 ^ 61)); [|reflexivity].
    change (Z.shiftl 1 61 - 1) with (2 ^ 61 - 1). lia. }
  auto.
Qed.

Lemma PackRoleAndTerm_sentinel_witness :
  term_field (PackRoleAndTerm 1 (2 ^ 61)) = Z.shiftl 1 61 - 1 /\
  UnpackTerm (PackRoleAndTerm 1 (2 ^ 61)) = Fatal "packed term is invalid" /\
  (forall w, term_field w = Z.shiftl 1 61 - 1 ->
             UnpackTerm w = Fatal "packed term is invalid").
Proof. apply (PackRoleAndTerm_sentinel 1 (2 ^ 61)). lia. Defined.

(** *** More on the packed word *)

Lemma word_split (w : Z) :
  w = Z.lor (Z.shiftl (Z.shiftr w 61) 61) (Z.land w (Z.ones 61)).
Proof.
  apply Z.bits_inj'. intros n Hn.
  rewrite Z.lor_spec, Z.land_spec.
  destruct (Z.lt_ge_cases n 61) as [Hlt|Hge].
  - rewrite Z.shiftl_spec_low by lia.
    rewrite Z.ones_spec_low by lia. rewrite andb_true_r. reflexivity.
  - rewrite Z.shiftl_spec, Z.shiftr_spec by lia.
    replace (n - 61 + 61) with n by lia.
    rewrite Z.ones_spec_high by lia. rewrite andb_false_r, orb_false_r.
    reflexivity.
Qed.

Lemma role_field_range (w : Z) : 0 <= w < 2 ^ 64 -> 0 <= role_field w < 8.
Proof.
  intros Hw. unfold role_field. rewrite kPackedTermBits_val.
  rewrite Z.shiftr_div_pow2 by lia.
  split; [apply Z.div_pos; lia | apply Z.div_lt_upper_bound; lia].
Qed.

Lemma term_field_range (w : Z) : 0 <= term_field w < 2 ^ 61.
Proof.
  unfold term_field. rewrite kTermMask_val, Z.land_ones by lia.
  apply Z.mod_pos_bound. lia.
Qed.

(** X1. Unpacking and packing again gives back the word: for every 64-bit
    word on which [UnpackTerm] returns, [PackRoleAndTerm] of the role and
    the term unpacked from it is the word itself. *)
Theorem Unpack_Pack_roundtrip (w term : Z) :
  0 <= w < 2 ^ 64 ->
  UnpackTerm w = Ok term ->
  PackRoleAndTerm (UnpackRole w) term = w.
Proof.
  intros Hw Hterm.
  pose proof (role_field_range w Hw) as Hr.
  pose proof (term_field_range w) as Ht.
  unfold UnpackTerm in Hterm. fold (term_field w) in Hterm.
  destruct (Z.eqb_spec (term_field w) kTermMask) as [|Hne]; [discriminate|].
  injection Hterm as <-.
  assert (Hmask : kTermMask = 2 ^ 61 - 1) by reflexivity.
  rewrite to_int64_small by lia.
  rewrite PackRoleAndTerm_layout.
  assert (Hpt : packed_term (term_field w) = term_field w).
  { apply packed_term_packable. unfold packable_term. lia. }
  rewrite Hpt.
  assert (Hpr : packed_role (UnpackRole w) mod 8 = role_field w).
  { unfold UnpackRole. fold (role_field w). rewrite kUnknownRolePacked_val.
    unfold packed_role, UNKNOWN_ROLE.
    destruct (Z.eqb_spec (role_field w) 7) as [->|Hn7]; [reflexivity|].
    destruct (Z.eqb_spec (role_field w) 999); [lia|].
    rewrite to_uint64_small by lia. apply Z.mod_small. lia. }
  rewrite Hpr. unfold role_field, term_field.
  rewrite kPackedTermBits_val, kTermMask_val. symmetry. apply word_split.
Qed.

Lemma Unpack_Pack_roundtrip_witness :
  0 <= 2 ^ 62 + 17 < 2 ^ 64 /\
  UnpackTerm (2 ^ 62 + 17) = Ok 17 /\
  PackRoleAndTerm (UnpackRole (2 ^ 62 + 17)) 17 = 2 ^ 62 + 17.
Proof.
  split; [lia|]. split; [reflexivity|].
  apply (Unpack_Pack_roundtrip (2 ^ 62 + 17) 17); [lia | reflexivity].
Defined.

(** X2. What [UnpackTerm] makes of a packed term, for every role value and
    every [int64_t] term: the term itself when it is in [0, 2^61 - 2], and
    a fatal error otherwise, negative terms included. *)
Theorem UnpackTerm_Pack_int64 (role : Role) (term : Z) :
  - 2 ^ 63 <= term < 2 ^ 63 ->
  UnpackTerm (PackRoleAndTerm role term) =
  if (0 <=? term) && (term <=? 2 ^ 61 - 2) then Ok term
  else Fatal "packed term is invalid".
Proof.
  intros Hint. rewrite UnpackTerm_Pack.
  destruct (Z.leb_spec 0 term) as [Hlo|Hlo];
    [destruct (Z.leb_spec term (2 ^ 61 - 2)) as [Hhi|Hhi]|]; cbn [andb].
  - destruct (packed_term_packable term (conj Hlo Hhi)) as [-> Hne].
    destruct (Z.eqb_spec term kTermMask); [contradiction | reflexivity].
  - rewrite packed_term_unpackable; [reflexivity | exact Hint |].
    unfold packable_term. lia.
  - rewrite packed_term_unpackable; [reflexivity | exact Hint |].
    unfold packable_term. lia.
Qed.

Lemma UnpackTerm_Pack_int64_witness :
  - 2 ^ 63 <= -5 < 2 ^ 63 /\
  UnpackTerm (PackRoleAndTerm 1 (-5)) = Fatal "packed term is invalid".
Proof.
  split; [lia|]. apply (UnpackTerm_Pack_int64 1 (-5)). lia.
Defined.

(** X3. Whatever role value and term are packed, the result is a 64-bit
    word, and the role unpacked from it is one of 0..6 or [UNKNOWN_ROLE]:
    the reserved value 7 never comes out as a role. *)
Theorem Pack_word_closed (role : Role) (term : Z) :
  0 <= PackRoleAndTerm role term < 2 ^ 64 /\
  packable_role (UnpackRole (PackRoleAndTerm role term)).
Proof.
  split; [apply Pack_range|].
  pose proof (role_field_range _ (Pack_range role term)) as Hr.
  unfold UnpackRole. fold (role_field (PackRoleAndTerm role term)).
  rewrite kUnknownRolePacked_val.
  destruct (Z.eqb_spec (role_field (PackRoleAndTerm role term)) 7).
  - right. reflexivity.
  - left. unfold known_role. lia.
Qed.

(** X4. Packing is injective on what it can hold: two pairs of a packable
    role and a term of [0, 2^61 - 2] with the same packed word are the same
    pair. *)
Theorem PackRoleAndTerm_injective (role1 role2 : Role) (term1 term2 : Z) :
  packable_role role1 -> packable_role role2 ->
  0 <= term1 <= 2 ^ 61 - 2 -> 0 <= term2 <= 2 ^ 61 - 2 ->
  PackRoleAndTerm role1 term1 = PackRoleAndTerm role2 term2 ->
  role1 = role2 /\ term1 = term2.
Proof.
  intros Hr1 Hr2 Ht1 Ht2 Heq. split.
  - rewrite <- (UnpackRole_Pack role1 term1 Hr1).
    rewrite <- (UnpackRole_Pack role2 term2 Hr2). rewrite Heq. reflexivity.
  - pose proof (term_field_Pack role1 term1) as H1.
    pose proof (term_field_Pack role2 term2) as H2.
    rewrite Heq in H1.
    destruct (packed_term_packable term1 Ht1) as [E1 _].
    destruct (packed_term_packable term2 Ht2) as [E2 _].
    congruence.
Qed.

Lemma PackRoleAndTerm_injective_witness :
  packable_role 2 /\ packable_role 2 /\
  0 <= 9 <= 2 ^ 61 - 2 /\ 0 <= 9 <= 2 ^ 61 - 2 /\
  PackRoleAndTerm 2 9 = PackRoleAndTerm 2 9 /\
  2 = 2 /\ 9 = 9.
Proof.
  assert (Hr : packable_role 2) by (left; unfold known_role; lia).
  assert (Ht : 0 <= 9 <= 2 ^ 61 - 2) by lia.
  repeat (split; [first [exact Hr | exact Ht | reflexivity]|]).
  apply (PackRoleAndTerm_injective 2 2 9 9 Hr Hr Ht Ht eq_refl).
Defined.

End PackedCache.

(** ** ConsensusMetadata (consensus_meta.cc) *)

Module ConsensusMeta.
Import PackedCache.

(** [ConsensusMetadata::RaftConfigState].  The [default:] branch of
    [GetConfig]'s switch is for integers that are none of the three
    enumerators; the inductive type has no such value. *)
Inductive RaftConfigState : Type :=
| ACTIVE_CONFIG | COMMITTED_CONFIG | PENDING_CONFIG.

Inductive FlushMode : Type := OVERWRITE | NO_OVERWRITE.

Inductive ConsensusMetadataCreateMode : Type := FLUSH_ON_CREATE | NO_FLUSH_ON_CREATE.

(** What the file uses of [FsManager]; the constructor's [CHECK_NOTNULL]
    holds by typing, a [FsManager] value is always there. *)
Record FsManager : Type := mkFsManager {
  GetConsensusMetadataDir : string;
  GetConsensusMetadataPath : string -> string;
  meta_on_xfs : bool
}.

(** The gflags the file reads. *)
Record Flags : Type := mkFlags {
  FLAGS_fault_crash_before_cmeta_flush : Q;
  FLAGS_cmeta_force_fsync : bool;
  FLAGS_cmeta_fsync_override_on_xfs : bool;
  FLAGS_log_force_fsync_all : bool
}.

(** Modelled from the spec: [MAYBE_FAULT] of util/fault_injection.h, which is
    not part of the sources embedded here: with the probability the flag
    gives, the process crashes here.  [draw] is the random number of this
    call, in [0, 1). *)
Definition MAYBE_FAULT (fraction draw : Q) : Result unit :=
  if Qle_bool fraction 0 then Ok tt
  else if Qle_bool fraction draw then Ok tt
  else Fatal "injected fault".

Inductive PBCreateMode : Type := pb_OVERWRITE | pb_NO_OVERWRITE.
Inductive PBSyncMode : Type := pb_SYNC | pb_NO_SYNC.

Section Metadata.

(** Whether the build has DCHECKs on. *)
Variable DCHECK_IS_ON : bool.

(** Modelled from the spec: [kMinimumTerm] of opid_util.h, which is not part
    of the sources embedded here: "the implementation's MinimumTerm
    (typically 0)". *)
Variable kMinimumTerm : Z.

(** Modelled from the spec: the message [RaftConfigPB] of metadata.pb.h, which
    is not part of the sources embedded here, "a Raft configuration"; its
    default instance, which a getter returns for an absent field and
    [Clear()] leaves behind; and [GetConsensusRole] of quorum_util.h, the
    derivation of the active role. *)
Variable RaftConfigPB : Type.
Variable RaftConfigPB_default : RaftConfigPB.
Variable GetConsensusRole : string -> string -> RaftConfigPB -> Role.

(** *** The protobuf messages

    An optional or required field is an [option]: [has_x()] is [is_Some],
    the getter [x()] returns the default of the type when the field is
    absent. *)

Record ConsensusMetadataPB : Type := mkConsensusMetadataPB {
  committed_config_ : option RaftConfigPB;
  current_term_ : option Z;
  voted_for_ : option string
}.

Definition pb_has_current_term (pb : ConsensusMetadataPB) : bool :=
  bool_decide (is_Some (current_term_ pb)).
Definition pb_current_term (pb : ConsensusMetadataPB) : Z :=
  default 0 (current_term_ pb).
Definition pb_set_current_term (term : Z) (pb : ConsensusMetadataPB) :=
  mkConsensusMetadataPB (committed_config_ pb) (Some term) (voted_for_ pb).

Definition pb_has_voted_for (pb : ConsensusMetadataPB) : bool :=
  bool_decide (is_Some (voted_for_ pb)).
Definition pb_voted_for (pb : ConsensusMetadataPB) : string :=
  default "" (voted_for_ pb).
Definition pb_set_voted_for (uuid : string) (pb : ConsensusMetadataPB) :=
  mkConsensusMetadataPB (committed_config_ pb) (current_term_ pb) (Some uuid).
Definition pb_clear_voted_for (pb : ConsensusMetadataPB) :=
  mkConsensusMetadataPB (committed_config_ pb) (current_term_ pb) None.

Definition pb_has_committed_config (pb : ConsensusMetadataPB) : bool :=
  bool_decide (is_Some (committed_config_ pb)).
Definition pb_committed_config (pb : ConsensusMetadataPB) : RaftConfigPB :=
  default RaftConfigPB_default (committed_config_ pb).
Definition pb_set_committed_config (config : RaftConfigPB) (pb : ConsensusMetadataPB) :=
  mkConsensusMetadataPB (Some config) (current_term_ pb) (voted_for_ pb).

Record ConsensusStatePB : Type := mkConsensusStatePB {
  cstate_current_term_ : option Z;
  cstate_leader_uuid_ : option string;
  cstate_committed_config_ : option RaftConfigPB;
  cstate_pending_config_ : option RaftConfigPB
}.

Definition cstate_current_term (cstate : ConsensusStatePB) : Z :=
  default 0 (cstate_current_term_ cstate).
Definition cstate_committed_config (cstate : ConsensusStatePB) : RaftConfigPB :=
  default RaftConfigPB_default (cstate_committed_config_ cstate).

(** *** The object *)

Record ConsensusMetadata : Type := mkConsensusMetadata {
  fs_manager_ : FsManager;
  tablet_id_ : string;
  peer_uuid_ : string;
  pb_ : ConsensusMetadataPB;
  has_pending_config_ : bool;
  pending_config_ : RaftConfigPB;
  leader_uuid_ : string;
  active_role_ : Role;
  role_and_term_cache_ : Z;
  flush_count_for_tests_ : Z;
  on_disk_size_ : Z
}.

Definition with_pb (pb : ConsensusMetadataPB) (this : ConsensusMetadata) :=
  mkConsensusMetadata (fs_manager_ this) (tablet_id_ this) (peer_uuid_ this)
    pb (has_pending_config_ this) (pending_config_ this) (leader_uuid_ this)
    (active_role_ this) (role_and_term_cache_ this)
    (flush_count_for_tests_ this) (on_disk_size_ this).

Definition with_pending (has : bool) (config : RaftConfigPB)
    (this : ConsensusMetadata) :=
  mkConsensusMetadata (fs_manager_ this) (tablet_id_ this) (peer_uuid_ this)
    (pb_ this) has config (leader_uuid_ this)
    (active_role_ this) (role_and_term_cache_ this)
    (flush_count_for_tests_ this) (on_disk_size_ this).

Definition with_leader_uuid (uuid : string) (this : ConsensusMetadata) :=
  mkConsensusMetadata (fs_manager_ this) (tablet_id_ this) (peer_uuid_ this)
    (pb_ this) (has_pending_config_ this) (pending_config_ this) uuid
    (active_role_ this) (role_and_term_cache_ this)
    (flush_count_for_tests_ this) (on_disk_size_ this).

Definition with_active_role (role : Role) (this : ConsensusMetadata) :=
  mkConsensusMetadata (fs_manager_ this) (tablet_id_ this) (peer_uuid_ this)
    (pb_ this) (has_pending_config_ this) (pending_config_ this)
    (leader_uuid_ this) role (role_and_term_cache_ this)
    (flush_count_for_tests_ this) (on_disk_size_ this).

Definition with_role_and_term_cache (w : Z) (this : ConsensusMetadata) :=
  mkConsensusMetadata (fs_manager_ this) (tablet_id_ this) (peer_uuid_ this)
    (pb_ this) (has_pending_config_ this) (pending_config_ this)
    (leader_uuid_ this) (active_role_ this) w
    (flush_count_for_tests_ this) (on_disk_size_ this).

Definition with_flush_count (n : Z) (this : ConsensusMetadata) :=
  mkConsensusMetadata (fs_manager_ this) (tablet_id_ this) (peer_uuid_ this)
    (pb_ this) (has_pending_config_ this) (pending_config_ this)
    (leader_uuid_ this) (active_role_ this) (role_and_term_cache_ this)
    n (on_disk_size_ this).

Definition with_on_disk_size (n : Z) (this : ConsensusMetadata) :=
  mkConsensusMetadata (fs_manager_ this) (tablet_id_ this) (peer_uuid_ this)
    (pb_ this) (has_pending_config_ this) (pending_config_ this)
    (leader_uuid_ this) (active_role_ this) (role_and_term_cache_ this)
    (flush_count_for_tests_ this) n.

(** *** Accessors and mutators

    A [const] method takes the object and returns a [Result]; a mutator
    returns the object after the call.  [DFAKE_SCOPED_RECURSIVE_LOCK] asserts
    that no two threads are inside the object at once; with one thread it
    does nothing, and neither does logging. *)

Definition current_term (this : ConsensusMetadata) : Result Z :=
  DCHECK DCHECK_IS_ON (pb_has_current_term (pb_ this)) "pb_.has_current_term()";;
  mret (pb_current_term (pb_ this)).

Definition UpdateRoleAndTermCache (this : ConsensusMetadata)
    : Result ConsensusMetadata :=
  term ← (if pb_has_current_term (pb_ this) then current_term this
          else mret (-1));
  mret (with_role_and_term_cache
          (PackRoleAndTerm (active_role_ this) term) this).

Definition set_current_term (term : Z) (this : ConsensusMetadata)
    : Result ConsensusMetadata :=
  DCHECK DCHECK_IS_ON (kMinimumTerm <=? term) "term >= kMinimumTerm";;
  UpdateRoleAndTermCache (with_pb (pb_set_current_term term (pb_ this)) this).

Definition has_voted_for (this : ConsensusMetadata) : bool :=
  pb_has_voted_for (pb_ this).

Definition voted_for (this : ConsensusMetadata) : Result string :=
  DCHECK DCHECK_IS_ON (pb_has_voted_for (pb_ this)) "pb_.has_voted_for()";;
  mret (pb_voted_for (pb_ this)).

Definition clear_voted_for (this : ConsensusMetadata)
    : Result ConsensusMetadata :=
  mret (with_pb (pb_clear_voted_for (pb_ this)) this).

Definition set_voted_for (uuid : string) (this : ConsensusMetadata)
    : Result ConsensusMetadata :=
  DCHECK DCHECK_IS_ON (negb (String.eqb uuid "")) "!uuid.empty()";;
  mret (with_pb (pb_set_voted_for uuid (pb_ this)) this).

Definition GetConfig (type : RaftConfigState) (this : ConsensusMetadata)
    : Result RaftConfigPB :=
  match type with
  | ACTIVE_CONFIG =>
      if has_pending_config_ this then mret (pending_config_ this)
      else
        DCHECK DCHECK_IS_ON (pb_has_committed_config (pb_ this))
               "pb_.has_committed_config()";;
        mret (pb_committed_config (pb_ this))
  | COMMITTED_CONFIG =>
      DCHECK DCHECK_IS_ON (pb_has_committed_config (pb_ this))
             "pb_.has_committed_config()";;
      mret (pb_committed_config (pb_ this))
  | PENDING_CONFIG =>
      CHECK (has_pending_config_ this) "There is no pending config";;
      mret (pending_config_ this)
  end.

Definition CommittedConfig (this : ConsensusMetadata) : Result RaftConfigPB :=
  GetConfig COMMITTED_CONFIG this.

Definition PendingConfig (this : ConsensusMetadata) : Result RaftConfigPB :=
  GetConfig PENDING_CONFIG this.

Definition ActiveConfig (this : ConsensusMetadata) : Result RaftConfigPB :=
  GetConfig ACTIVE_CONFIG this.

Definition UpdateActiveRole (this : ConsensusMetadata)
    : Result ConsensusMetadata :=
  config ← ActiveConfig this;
  (* VLOG_WITH_PREFIX(1): not modelled *)
  UpdateRoleAndTermCache
    (with_active_role
       (GetConsensusRole (peer_uuid_ this) (leader_uuid_ this) config) this).

Definition set_committed_config (config : RaftConfigPB)
    (this : ConsensusMetadata) : Result ConsensusMetadata :=
  let this := with_pb (pb_set_committed_config config (pb_ this)) this in
  if negb (has_pending_config_ this) then UpdateActiveRole this
  else mret this.

Definition has_pending_config (this : ConsensusMetadata) : bool :=
  has_pending_config_ this.

Definition clear_pending_config (this : ConsensusMetadata)
    : Result ConsensusMetadata :=
  UpdateActiveRole (with_pending false RaftConfigPB_default this).

Definition set_pending_config (config : RaftConfigPB)
    (this : ConsensusMetadata) : Result ConsensusMetadata :=
  UpdateActiveRole (with_pending true config this).

Definition leader_uuid (this : ConsensusMetadata) : string :=
  leader_uuid_ this.

Definition set_leader_uuid (uuid : string) (this : ConsensusMetadata)
    : Result ConsensusMetadata :=
  UpdateActiveRole (with_leader_uuid uuid this).

Definition active_role (this : ConsensusMetadata) : Role :=
  active_role_ this.

Definition ToConsensusStatePB (this : ConsensusMetadata)
    : Result ConsensusStatePB :=
  committed ← CommittedConfig this;
  mret (mkConsensusStatePB
          (Some (pb_current_term (pb_ this)))
          (if negb (String.eqb (leader_uuid_ this) "")
           then Some (leader_uuid_ this) else None)
          (Some committed)
          (if has_pending_config_ this
           then Some (pending_config_ this) else None)).

Definition MergeCommittedConsensusStatePB (cstate : ConsensusStatePB)
    (this : ConsensusMetadata) : Result ConsensusMetadata :=
  term ← current_term this;
  this ← (if cstate_current_term cstate >? term
          then this ← set_current_term (cstate_current_term cstate) this;
               clear_voted_for this
          else mret this);
  this ← set_leader_uuid "" this;
  this ← set_committed_config (cstate_committed_config cstate) this;
  clear_pending_config this.

Definition GetRoleAndTerm (this : ConsensusMetadata) : Result (Role * Z) :=
  let val := role_and_term_cache_ this in
  term ← UnpackTerm val;
  mret (UnpackRole val, term).

(** The constructor.  [role_and_term_cache_] has no initializer: whatever it
    holds ([garbage]) is overwritten by [UpdateRoleAndTermCache]. *)
Definition new_ConsensusMetadata (garbage : Z) (fs_manager : FsManager)
    (tablet_id peer_uuid : string) : Result ConsensusMetadata :=
  UpdateRoleAndTermCache
    (mkConsensusMetadata fs_manager tablet_id peer_uuid
       (mkConsensusMetadataPB None None None)
       false RaftConfigPB_default "" UNKNOWN_ROLE garbage 0 0).

(** *** Sequences of mutator calls *)

Inductive Mutator : Type :=
| call_set_current_term (term : Z)
| call_set_voted_for (uuid : string)
| call_clear_voted_for
| call_set_committed_config (config : RaftConfigPB)
| call_set_pending_config (config : RaftConfigPB)
| call_clear_pending_config
| call_set_leader_uuid (uuid : string)
| call_MergeCommittedConsensusStatePB (cstate : ConsensusStatePB).

Definition apply_mutator (m : Mutator) (this : ConsensusMetadata)
    : Result ConsensusMetadata :=
  match m with
  | call_set_current_term term => set_current_term term this
  | call_set_voted_for uuid => set_voted_for uuid this
  | call_clear_voted_for => clear_voted_for this
  | call_set_committed_config config => set_committed_config config this
  | call_set_pending_config config => set_pending_config config this
  | call_clear_pending_config => clear_pending_config this
  | call_set_leader_uuid uuid => set_leader_uuid uuid this
  | call_MergeCommittedConsensusStatePB cstate =>
      MergeCommittedConsensusStatePB cstate this
  end.

Fixpoint run_mutators (ms : list Mutator) (this : ConsensusMetadata)
    : Result ConsensusMetadata :=
  match ms with
  | [] => mret this
  | m :: ms => this ← apply_mutator m this; run_mutators ms this
  end.

(** The objects a program can hold: made by the constructor, or by the
    constructor and the in-memory steps of [Load] (the message read from disk
    is put in place and the role derived), and then changed by mutators and
    by [Flush], which counts its calls and records the size on disk. *)
Inductive instance : ConsensusMetadata -> Prop :=
| instance_new garbage fs_manager tablet_id peer_uuid this :
    new_ConsensusMetadata garbage fs_manager tablet_id peer_uuid = Ok this ->
    instance this
| instance_loaded garbage fs_manager tablet_id peer_uuid pb cmeta this :
    new_ConsensusMetadata garbage fs_manager tablet_id peer_uuid = Ok cmeta ->
    UpdateActiveRole (with_pb pb cmeta) = Ok this ->
    instance this
| instance_mutated m this this' :
    instance this -> apply_mutator m this = Ok this' -> instance this'
| instance_counted count this :
    instance this -> instance (with_flush_count count this)
| instance_sized size this :
    instance this -> instance (with_on_disk_size size this).

(** The term [UpdateRoleAndTermCache] packs. *)
Definition cached_term (this : ConsensusMetadata) : Z :=
  if pb_has_current_term (pb_ this) then pb_current_term (pb_ this) else -1.

Definition cache_consistent (this : ConsensusMetadata) : Prop :=
  role_and_term_cache_ this =
  PackRoleAndTerm (active_role_ this) (cached_term this).

(** What the DCHECKs of [MergeCommittedConsensusStatePB] ask of the object
    and the argument in a build that has them. *)
Definition Merge_dchecks (cstate : ConsensusStatePB) (this : ConsensusMetadata)
    : bool :=
  pb_has_current_term (pb_ this)
  && implb (cstate_current_term cstate >? pb_current_term (pb_ this))
           (kMinimumTerm <=? cstate_current_term cstate)
  && (has_pending_config_ this || pb_has_committed_config (pb_ this)).

(** *** The durable path

    The filesystem is a state [Env] behind the operations the file calls;
    what each does is not this file's business, so they are parameters.
    Every call is also written to a log, so that "no file is written" can be
    said. *)

Section Durable.

Variable VerifyRaftConfig : RaftConfigPB -> Status.
Variable DirName : string -> string.
Variable FLAGS : Flags.

Variable Env : Type.
Variable CreateDirIfMissing : string -> Env -> Status * bool * Env.
Variable SyncDir : string -> Env -> Status * Env.
Variable WritePBContainerToPath :
  string -> ConsensusMetadataPB -> PBCreateMode -> PBSyncMode -> Env -> Status * Env.
Variable ReadPBContainerFromPath : string -> Env -> Status * ConsensusMetadataPB.
Variable GetFileSize : string -> Env -> Status * Z.
Variable FileExists : string -> Env -> bool.
Variable DeleteFile : string -> Env -> Status * Env.

Inductive EnvCall : Type :=
| CallCreateDirIfMissing (dir : string)
| CallSyncDir (dir : string)
| CallWritePBContainerToPath (path : string) (pb : ConsensusMetadataPB)
    (create : PBCreateMode) (sync : PBSyncMode)
| CallReadPBContainerFromPath (path : string)
| CallGetFileSize (path : string)
| CallFileExists (path : string)
| CallDeleteFile (path : string).

Record World : Type := mkWorld { w_env : Env; w_calls : list EnvCall }.

(** A computation that acts on the world and may abort the process; the
    world as it was at the abort is kept. *)
Definition IO (A : Type) : Type := World -> Result A * World.

#[local] Instance IO_ret : MRet IO := fun A a w => (Ok a, w).

#[local] Instance IO_bind : MBind IO := fun A B k m w =>
  match m w with
  | (Ok a, w') => k a w'
  | (Fatal msg, w') => (Fatal msg, w')
  end.

Definition lift {A : Type} (r : Result A) : IO A := fun w => (r, w).

Definition call {A : Type} (c : EnvCall) (f : Env -> A * Env) : IO A :=
  fun w =>
    let '(a, env) := f (w_env w) in
    (Ok a, mkWorld env (w_calls w ++ [c])).

Definition query {A : Type} (c : EnvCall) (f : Env -> A) : IO A :=
  call c (fun env => (f env, env)).

Definition UpdateOnDiskSize (this : ConsensusMetadata)
    : IO (Status * ConsensusMetadata) :=
  let path := GetConsensusMetadataPath (fs_manager_ this) (tablet_id_ this) in
  '(s, on_disk_size) ← query (CallGetFileSize path) (GetFileSize path);
  if negb (ok s) then mret (s, this)
  else mret (Status_OK, with_on_disk_size on_disk_size this).

Definition Flush (flush_mode : FlushMode) (draw : Q) (this : ConsensusMetadata)
    : IO (Status * ConsensusMetadata) :=
  lift (MAYBE_FAULT (FLAGS_fault_crash_before_cmeta_flush FLAGS) draw);;
  let this := with_flush_count (flush_count_for_tests_ this + 1) this in
  let s := VerifyRaftConfig (pb_committed_config (pb_ this)) in
  if negb (ok s) then
    mret (CloneAndPrepend
            "Invalid config in ConsensusMetadata, cannot flush to disk" s, this)
  else
  let dir := GetConsensusMetadataDir (fs_manager_ this) in
  '(s, created_dir) ←
    call (CallCreateDirIfMissing dir) (CreateDirIfMissing dir);
  if negb (ok s) then
    mret (CloneAndPrepend "Unable to create consensus metadata root dir" s, this)
  else
  let parent_dir := DirName dir in
  s ← (if (created_dir : bool)
       then call (CallSyncDir parent_dir) (SyncDir parent_dir)
       else mret Status_OK);
  if negb (ok s) then
    mret (CloneAndPrepend
            ("Unable to fsync consensus parent dir " ++ parent_dir) s, this)
  else
  let cmeta_force_fsync :=
    FLAGS_cmeta_force_fsync FLAGS ||
    (FLAGS_cmeta_fsync_override_on_xfs FLAGS && meta_on_xfs (fs_manager_ this)) in
  let meta_file_path :=
    GetConsensusMetadataPath (fs_manager_ this) (tablet_id_ this) in
  let create :=
    match flush_mode with OVERWRITE => pb_OVERWRITE | NO_OVERWRITE => pb_NO_OVERWRITE end in
  let sync :=
    if FLAGS_log_force_fsync_all FLAGS || cmeta_force_fsync
    then pb_SYNC else pb_NO_SYNC in
  s ← call (CallWritePBContainerToPath meta_file_path (pb_ this) create sync)
           (WritePBContainerToPath meta_file_path (pb_ this) create sync);
  if negb (ok s) then
    mret (CloneAndPrepend
            ("Unable to write consensus meta file for tablet "
               ++ tablet_id_ this ++ " to path " ++ meta_file_path) s, this)
  else
  UpdateOnDiskSize this.

(** [Create] and [Load] return the status and, when it is OK, the object
    they made ([cmeta_out]). *)
Definition Create (garbage : Z) (fs_manager : FsManager)
    (tablet_id peer_uuid : string) (config : RaftConfigPB) (current_term : Z)
    (create_mode : ConsensusMetadataCreateMode) (draw : Q)
    : IO (Status * option ConsensusMetadata) :=
  cmeta ← lift (new_ConsensusMetadata garbage fs_manager tablet_id peer_uuid);
  cmeta ← lift (set_committed_config config cmeta);
  cmeta ← lift (set_current_term current_term cmeta);
  match create_mode with
  | FLUSH_ON_CREATE =>
      '(s, cmeta) ← Flush NO_OVERWRITE draw cmeta;
      if negb (ok s) then mret (s, None) else mret (Status_OK, Some cmeta)
  | NO_FLUSH_ON_CREATE =>
      let path := GetConsensusMetadataPath fs_manager tablet_id in
      exists_ ← query (CallFileExists path) (FileExists path);
      if (exists_ : bool) then
        mret (mkStatus kAlreadyPresent ("File " ++ path ++ " already exists"), None)
      else mret (Status_OK, Some cmeta)
  end.

Definition Load (garbage : Z) (fs_manager : FsManager)
    (tablet_id peer_uuid : string) : IO (Status * option ConsensusMetadata) :=
  cmeta ← lift (new_ConsensusMetadata garbage fs_manager tablet_id peer_uuid);
  let path := GetConsensusMetadataPath fs_manager tablet_id in
  '(s, pb) ← query (CallReadPBContainerFromPath path) (ReadPBContainerFromPath path);
  if negb (ok s) then mret (s, None) else
  cmeta ← lift (UpdateActiveRole (with_pb pb cmeta));
  '(s, cmeta) ← UpdateOnDiskSize cmeta;
  if negb (ok s) then mret (s, None) else mret (Status_OK, Some cmeta).

Definition DeleteOnDiskData (fs_manager : FsManager) (tablet_id : string)
    : IO Status :=
  let cmeta_path := GetConsensusMetadataPath fs_manager tablet_id in
  s ← call (CallDeleteFile cmeta_path) (DeleteFile cmeta_path);
  if negb (ok s) then
    mret (CloneAndPrepend
            ("Unable to delete consensus metadata file for tablet " ++ tablet_id) s)
  else mret Status_OK.

Lemma IO_bind_inv {A B : Type} (m : IO A) (k : A -> IO B) (w w' : World) (b : B) :
  (m ≫= k) w = (Ok b, w') ->
  exists a w1, m w = (Ok a, w1) /\ k a w1 = (Ok b, w').
Proof.
  unfold mbind, IO_bind. destruct (m w) as [[a|msg] w1]; intros H.
  - eauto.
  - discriminate.
Qed.

Lemma lift_inv {A : Type} (r : Result A) (w w' : World) (a : A) :
  lift r w = (Ok a, w') -> r = Ok a.
Proof. unfold lift. intros H. injection H as -> _. reflexivity. Qed.

(** [UpdateOnDiskSize] changes [on_disk_size_] at most. *)
Lemma UpdateOnDiskSize_inv (this this' : ConsensusMetadata) (s : Status)
    (w w' : World) :
  UpdateOnDiskSize this w = (Ok (s, this'), w') ->
  this' = this \/ exists size, this' = with_on_disk_size size this.
Proof.
  unfold UpdateOnDiskSize. intros H.
  apply IO_bind_inv in H as ([s0 size] & w1 & _ & H).
  destruct (ok s0); cbn [negb] in H; injection H as _ <- _.
  - right. eauto.
  - left. reflexivity.
Qed.

(** [Flush] changes [flush_count_for_tests_] and [on_disk_size_] at most. *)
Lemma Flush_inv (flush_mode : FlushMode) (draw : Q)
    (this this' : ConsensusMetadata) (s : Status) (w w' : World) :
  Flush flush_mode draw this w = (Ok (s, this'), w') ->
  let counted := with_flush_count (flush_count_for_tests_ this + 1) this in
  this' = counted \/ exists size, this' = with_on_disk_size size counted.
Proof.
  unfold Flush. intros H.
  apply IO_bind_inv in H as ([] & w1 & _ & H).
  cbv zeta in H.
  match type of H with
  | context [ok (VerifyRaftConfig ?config)] =>
      destruct (ok (VerifyRaftConfig config))
  end; cbn [negb] in H; [|injection H as _ <- _; left; reflexivity].
  apply IO_bind_inv in H as ([s1 created_dir] & w2 & _ & H).
  destruct (ok s1); cbn [negb] in H;
    [|injection H as _ <- _; left; reflexivity].
  apply IO_bind_inv in H as (s2 & w3 & _ & H).
  destruct (ok s2); cbn [negb] in H;
    [|injection H as _ <- _; left; reflexivity].
  apply IO_bind_inv in H as (s3 & w4 & _ & H).
  destruct (ok s3); cbn [negb] in H;
    [|injection H as _ <- _; left; reflexivity].
  apply UpdateOnDiskSize_inv in H. exact H.
Qed.

Lemma Flush_instance (flush_mode : FlushMode) (draw : Q)
    (this this' : ConsensusMetadata) (s : Status) (w w' : World) :
  instance this ->
  Flush flush_mode draw this w = (Ok (s, this'), w') ->
  instance this'.
Proof.
  intros Hinst H. apply Flush_inv in H. cbv zeta in H.
  destruct H as [-> | [size ->]].
  - apply instance_counted. exact Hinst.
  - apply instance_sized, instance_counted. exact Hinst.
Qed.

Lemma Create_instance (garbage : Z) (fs_manager : FsManager)
    (tablet_id peer_uuid : string) (config : RaftConfigPB) (term : Z)
    (create_mode : ConsensusMetadataCreateMode) (draw : Q)
    (s : Status) (cmeta : ConsensusMetadata) (w w' : World) :
  Create garbage fs_manager tablet_id peer_uuid config term create_mode draw w
    = (Ok (s, Some cmeta), w') ->
  instance cmeta.
Proof.
  unfold Create. intros H.
  apply IO_bind_inv in H as (c0 & w0 & H0 & H). apply lift_inv in H0.
  apply IO_bind_inv in H as (c1 & w1 & H1 & H). apply lift_inv in H1.
  apply IO_bind_inv in H as (c2 & w2 & H2 & H). apply lift_inv in H2.
  assert (Hinst : instance c2).
  { apply (instance_mutated (call_set_current_term term) c1); [|exact H2].
    apply (instance_mutated (call_set_committed_config config) c0); [|exact H1].
    eapply instance_new. exact H0. }
  destruct create_mode.
  - apply IO_bind_inv in H as ([s1 c3] & w3 & Hflush & H).
    destruct (ok s1); cbn [negb] in H; [|discriminate].
    injection H as _ <- _. eapply Flush_instance; eauto.
  - apply IO_bind_inv in H as (exists_ & w3 & _ & H).
    destruct exists_; [discriminate|]. injection H as _ <- _. exact Hinst.
Qed.

Lemma Load_instance (garbage : Z) (fs_manager : FsManager)
    (tablet_id peer_uuid : string)
    (s : Status) (cmeta : ConsensusMetadata) (w w' : World) :
  Load garbage fs_manager tablet_id peer_uuid w = (Ok (s, Some cmeta), w') ->
  instance cmeta.
Proof.
  unfold Load. intros H.
  apply IO_bind_inv in H as (c0 & w0 & H0 & H). apply lift_inv in H0.
  cbv zeta in H.
  apply IO_bind_inv in H as ([s1 pb] & w1 & _ & H).
  destruct (ok s1); cbn [negb] in H; [|discriminate].
  apply IO_bind_inv in H as (c1 & w2 & H1 & H). apply lift_inv in H1.
  apply IO_bind_inv in H as ([s2 c2] & w3 & H2 & H).
  destruct (ok s2); cbn [negb] in H; [|discriminate].
  injection H as _ <- _.
  assert (Hinst : instance c1) by (eapply instance_loaded; eauto).
  apply UpdateOnDiskSize_inv in H2 as [-> | [size ->]].
  - exact Hinst.
  - apply instance_sized. exact Hinst.
Qed.

Lemma prefix_app (a b : string) : String.prefix a (a ++ b) = true.
Proof.
  induction a as [|c a IH]; simpl.
  - destruct b; reflexivity.
  - destruct (ascii_dec c c) as [_|Hne]; [exact IH | contradiction].
Qed.

Lemma CloneAndPrepend_error (msg : string) (s : Status) :
  ok s = false ->
  ok (CloneAndPrepend msg s) = false /\
  code (CloneAndPrepend msg s) = code s /\
  String.prefix msg (message (CloneAndPrepend msg s)) = true.
Proof.
  intros Hs. unfold CloneAndPrepend. rewrite Hs. unfold ok in *. simpl.
  split; [exact Hs|]. split; [reflexivity | apply prefix_app].
Qed.

(** C7. When the committed config fails [VerifyRaftConfig], [Flush], in
    either mode, touches nothing on disk: the world after the call is the
    world before it, with no call to the filesystem made.  Unless the fault
    injected for tests ends the process first, it returns the error of the
    verification under the prefix "Invalid config in ConsensusMetadata,
    cannot flush to disk". *)
Theorem Flush_invalid_config (flush_mode : FlushMode) (draw : Q)
    (this : ConsensusMetadata) (w : World) :
  ok (VerifyRaftConfig (pb_committed_config (pb_ this))) = false ->
  snd (Flush flush_mode draw this w) = w /\
  (MAYBE_FAULT (FLAGS_fault_crash_before_cmeta_flush FLAGS) draw = Ok tt ->
   exists s,
     fst (Flush flush_mode draw this w) =
       Ok (s, with_flush_count (flush_count_for_tests_ this + 1) this) /\
     ok s = false /\
     code s = code (VerifyRaftConfig (pb_committed_config (pb_ this))) /\
     String.prefix "Invalid config in ConsensusMetadata, cannot flush to disk"
       (message s) = true).
Proof.
  intros Hbad. unfold Flush, lift.
  cbn [mbind IO_bind].
  destruct (MAYBE_FAULT (FLAGS_fault_crash_before_cmeta_flush FLAGS) draw)
    as [[]|msg] eqn:Hfault.
  - cbn [pb_ with_flush_count]. rewrite Hbad. cbn [negb mret IO_ret fst snd].
    split; [reflexivity|]. intros _.
    eexists. split; [reflexivity|].
    apply CloneAndPrepend_error. exact Hbad.
  - split; [reflexivity | discriminate].
Qed.

End Durable.

(** *** Elementary facts *)

Lemma DCHECK_true (msg : string) : DCHECK DCHECK_IS_ON true msg = Ok tt.
Proof. unfold DCHECK. destruct DCHECK_IS_ON; reflexivity. Qed.

Lemma DCHECK_holds (c : bool) (msg : string) :
  (DCHECK_IS_ON = true -> c = true) -> DCHECK DCHECK_IS_ON c msg = Ok tt.
Proof. apply DCHECK_Ok. Qed.

Lemma UpdateRoleAndTermCache_eq (this : ConsensusMetadata) :
  UpdateRoleAndTermCache this =
  Ok (with_role_and_term_cache
        (PackRoleAndTerm (active_role_ this) (cached_term this)) this).
Proof.
  unfold UpdateRoleAndTermCache, cached_term, current_term.
  destruct (pb_has_current_term (pb_ this)); [|reflexivity].
  rewrite DCHECK_true. reflexivity.
Qed.

Lemma set_current_term_eq (term : Z) (this : ConsensusMetadata) :
  (DCHECK_IS_ON = true -> kMinimumTerm <= term) ->
  set_current_term term this =
  Ok (with_role_and_term_cache (PackRoleAndTerm (active_role_ this) term)
        (with_pb (pb_set_current_term term (pb_ this)) this)).
Proof.
  intros Hpre. unfold set_current_term.
  rewrite DCHECK_holds by (intros Hd; apply Z.leb_le; auto).
  simpl. rewrite UpdateRoleAndTermCache_eq. reflexivity.
Qed.

Lemma ActiveConfig_eq (this : ConsensusMetadata) :
  (DCHECK_IS_ON = true ->
   has_pending_config_ this || pb_has_committed_config (pb_ this) = true) ->
  ActiveConfig this =
  Ok (if has_pending_config_ this then pending_config_ this
      else pb_committed_config (pb_ this)).
Proof.
  intros Hpre. unfold ActiveConfig, GetConfig.
  destruct (has_pending_config_ this); [reflexivity|].
  rewrite DCHECK_holds by exact Hpre. reflexivity.
Qed.

Lemma UpdateActiveRole_eq (this : ConsensusMetadata) :
  (DCHECK_IS_ON = true ->
   has_pending_config_ this || pb_has_committed_config (pb_ this) = true) ->
  UpdateActiveRole this =
  let config := if has_pending_config_ this then pending_config_ this
                else pb_committed_config (pb_ this) in
  let role := GetConsensusRole (peer_uuid_ this) (leader_uuid_ this) config in
  Ok (with_role_and_term_cache (PackRoleAndTerm role (cached_term this))
        (with_active_role role this)).
Proof.
  intros Hpre. unfold UpdateActiveRole.
  rewrite ActiveConfig_eq by exact Hpre. simpl.
  rewrite UpdateRoleAndTermCache_eq. reflexivity.
Qed.

Lemma UpdateActiveRole_inv (this this' : ConsensusMetadata) :
  UpdateActiveRole this = Ok this' ->
  exists role,
    this' = with_role_and_term_cache (PackRoleAndTerm role (cached_term this))
              (with_active_role role this) /\
    exists config,
      role = GetConsensusRole (peer_uuid_ this) (leader_uuid_ this) config.
Proof.
  unfold UpdateActiveRole. intros H.
  apply bind_Ok_inv in H as (config & _ & H).
  rewrite UpdateRoleAndTermCache_eq in H. injection H as <-.
  eexists. split; [reflexivity | eauto].
Qed.

(** [MergeCommittedConsensusStatePB] in one step: the message, and then the
    object, it leaves behind. *)
Definition merged_pb (cstate : ConsensusStatePB) (pb : ConsensusMetadataPB)
    : ConsensusMetadataPB :=
  pb_set_committed_config (cstate_committed_config cstate)
    (if cstate_current_term cstate >? pb_current_term pb
     then pb_clear_voted_for (pb_set_current_term (cstate_current_term cstate) pb)
     else pb).

Definition merged (cstate : ConsensusStatePB) (this : ConsensusMetadata)
    : ConsensusMetadata :=
  let pb := merged_pb cstate (pb_ this) in
  let role :=
    GetConsensusRole (peer_uuid_ this) "" (cstate_committed_config cstate) in
  mkConsensusMetadata (fs_manager_ this) (tablet_id_ this) (peer_uuid_ this)
    pb false RaftConfigPB_default "" role
    (PackRoleAndTerm role
       (if pb_has_current_term pb then pb_current_term pb else -1))
    (flush_count_for_tests_ this) (on_disk_size_ this).

Lemma MergeCommittedConsensusStatePB_eq (cstate : ConsensusStatePB)
    (this : ConsensusMetadata) :
  (DCHECK_IS_ON = true -> Merge_dchecks cstate this = true) ->
  MergeCommittedConsensusStatePB cstate this = Ok (merged cstate this).
Proof.
  intros Hpre. unfold Merge_dchecks in Hpre.
  unfold MergeCommittedConsensusStatePB, current_term.
  rewrite DCHECK_holds
    by (intros Hd; specialize (Hpre Hd); apply andb_true_iff in Hpre as [Hpre _];
        apply andb_true_iff in Hpre as [Hpre _]; exact Hpre).
  cbn [mbind mret Result_bind Result_ret].
  set (adopt := cstate_current_term cstate >? pb_current_term (pb_ this)) in *.
  assert (Hstep1 :
    (if adopt
     then this0 ← set_current_term (cstate_current_term cstate) this;
          clear_voted_for this0
     else mret this) =
    Ok (if adopt
        then with_pb (pb_clear_voted_for
                        (pb_set_current_term (cstate_current_term cstate) (pb_ this)))
               (with_role_and_term_cache
                  (PackRoleAndTerm (active_role_ this) (cstate_current_term cstate))
                  this)
        else this)).
  { destruct adopt eqn:Ha; [|reflexivity].
    rewrite set_current_term_eq.
    - reflexivity.
    - intros Hd. specialize (Hpre Hd).
      apply andb_true_iff in Hpre as [Hpre _].
      apply andb_true_iff in Hpre as [_ Hpre].
      simpl in Hpre. apply Z.leb_le. exact Hpre. }
  rewrite Hstep1. cbn [mbind mret Result_bind Result_ret].
  set (this1 := if adopt then _ else this).
  assert (Hpend1 : has_pending_config_ this1 = has_pending_config_ this)
    by (unfold this1; destruct adopt; reflexivity).
  assert (Hcc1 : committed_config_ (pb_ this1) = committed_config_ (pb_ this))
    by (unfold this1; destruct adopt; reflexivity).
  unfold set_leader_uuid. rewrite UpdateActiveRole_eq.
  2:{ intros Hd. specialize (Hpre Hd).
      apply andb_true_iff in Hpre as [_ Hpre].
      cbn. rewrite Hpend1. unfold pb_has_committed_config in *.
      rewrite Hcc1. exact Hpre. }
  cbn [mbind mret Result_bind Result_ret].
  unfold set_committed_config. cbn zeta.
  match goal with
  | |- context [negb (has_pending_config_ ?x)] =>
      destruct (has_pending_config_ x) eqn:Hp2
  end; cbn [negb mbind mret Result_bind Result_ret].
  - unfold clear_pending_config. rewrite UpdateActiveRole_eq by reflexivity.
    unfold merged, merged_pb, cached_term. fold adopt.
    unfold this1. destruct adopt; reflexivity.
  - rewrite UpdateActiveRole_eq by (intros _; rewrite orb_true_r; reflexivity).
    cbn [mbind mret Result_bind Result_ret].
    unfold clear_pending_config. rewrite UpdateActiveRole_eq by reflexivity.
    unfold merged, merged_pb, cached_term. fold adopt.
    unfold this1. destruct adopt; reflexivity.
Qed.

(** [MergeCommittedConsensusStatePB] returns exactly when its DCHECKs hold,
    or are compiled out. *)
Lemma MergeCommittedConsensusStatePB_returns (cstate : ConsensusStatePB)
    (this : ConsensusMetadata) :
  (exists this', MergeCommittedConsensusStatePB cstate this = Ok this') <->
  (DCHECK_IS_ON = true -> Merge_dchecks cstate this = true).
Proof.
  split.
  - intros [this' H] Hd. unfold MergeCommittedConsensusStatePB in H.
    apply bind_Ok_inv in H as (term & Hterm & H).
    unfold current_term in Hterm.
    apply bind_Ok_inv in Hterm as ([] & Hhas & Hterm).
    apply (proj1 (DCHECK_Ok _ _ _)) in Hhas; [|exact Hd].
    injection Hterm as <-.
    apply bind_Ok_inv in H as (this1 & H1 & H).
    apply bind_Ok_inv in H as (this2 & H2 & _).
    unfold Merge_dchecks. rewrite Hhas. cbn [andb].
    destruct (cstate_current_term cstate >? pb_current_term (pb_ this)) eqn:Ha;
      cbn [implb].
    + apply bind_Ok_inv in H1 as (this0 & H0 & H1).
      injection H1 as <-.
      unfold set_current_term in H0.
      apply bind_Ok_inv in H0 as ([] & Hmin & H0).
      apply (proj1 (DCHECK_Ok _ _ _)) in Hmin; [|exact Hd].
      rewrite Hmin. cbn [andb].
      rewrite UpdateRoleAndTermCache_eq in H0. injection H0 as <-.
      unfold set_leader_uuid, UpdateActiveRole, ActiveConfig, GetConfig in H2.
      apply bind_Ok_inv in H2 as (config & Hconfig & _).
      cbn in Hconfig.
      destruct (has_pending_config_ this); [reflexivity|].
      apply bind_Ok_inv in Hconfig as ([] & Hcc & _).
      apply (proj1 (DCHECK_Ok _ _ _)) in Hcc; [exact Hcc | exact Hd].
    + injection H1 as <-.
      unfold set_leader_uuid, UpdateActiveRole, ActiveConfig, GetConfig in H2.
      apply bind_Ok_inv in H2 as (config & Hconfig & _).
      cbn in Hconfig.
      destruct (has_pending_config_ this); [reflexivity|].
      apply bind_Ok_inv in Hconfig as ([] & Hcc & _).
      apply (proj1 (DCHECK_Ok _ _ _)) in Hcc; [exact Hcc | exact Hd].
  - intros Hpre. eexists. apply MergeCommittedConsensusStatePB_eq. exact Hpre.
Qed.

Lemma new_ConsensusMetadata_eq (garbage : Z) (fs_manager : FsManager)
    (tablet_id peer_uuid : string) :
  new_ConsensusMetadata garbage fs_manager tablet_id peer_uuid =
  Ok (mkConsensusMetadata fs_manager tablet_id peer_uuid
        (mkConsensusMetadataPB None None None)
        false RaftConfigPB_default "" UNKNOWN_ROLE
        (PackRoleAndTerm UNKNOWN_ROLE (-1)) 0 0).
Proof.
  unfold new_ConsensusMetadata. rewrite UpdateRoleAndTermCache_eq. reflexivity.
Qed.

Lemma GetRoleAndTerm_consistent (this : ConsensusMetadata) :
  cache_consistent this ->
  packable_role (active_role_ this) ->
  GetRoleAndTerm this =
  if packed_term (cached_term this) =? kTermMask
  then Fatal "packed term is invalid"
  else Ok (active_role_ this, packed_term (cached_term this)).
Proof.
  intros Hc Hr. unfold GetRoleAndTerm. rewrite Hc.
  rewrite UnpackTerm_Pack, UnpackRole_Pack by exact Hr.
  destruct (packed_term (cached_term this) =? kTermMask); reflexivity.
Qed.

(** *** The invariant of the cache

    The cache word is the packing of the role and the term, and the role
    has a property [P] that [UNKNOWN_ROLE] and the roles [GetConsensusRole]
    derives have. *)

Section Invariant.

Variable P : Role -> Prop.
Hypothesis P_unknown : P UNKNOWN_ROLE.
Hypothesis P_derived :
  forall peer leader config, P (GetConsensusRole peer leader config).

Definition cache_invariant (this : ConsensusMetadata) : Prop :=
  cache_consistent this /\ P (active_role_ this).

Lemma UpdateActiveRole_invariant (this this' : ConsensusMetadata) :
  UpdateActiveRole this = Ok this' -> cache_invariant this'.
Proof.
  intros H. apply UpdateActiveRole_inv in H as (role & -> & config & ->).
  split; [reflexivity | apply P_derived].
Qed.

Lemma set_current_term_invariant (term : Z) (this this' : ConsensusMetadata) :
  cache_invariant this -> set_current_term term this = Ok this' ->
  cache_invariant this'.
Proof.
  intros [_ Hr] H. unfold set_current_term in H.
  apply bind_Ok_inv in H as (_ & _ & H).
  rewrite UpdateRoleAndTermCache_eq in H. injection H as <-.
  split; [reflexivity | exact Hr].
Qed.

Lemma set_committed_config_invariant (config : RaftConfigPB)
    (this this' : ConsensusMetadata) :
  cache_invariant this -> set_committed_config config this = Ok this' ->
  cache_invariant this'.
Proof.
  intros Hinv H. unfold set_committed_config in H. simpl in H.
  destruct (has_pending_config_ this) eqn:Hp; simpl in H.
  - injection H as <-. exact Hinv.
  - apply UpdateActiveRole_invariant in H. exact H.
Qed.

Lemma MergeCommittedConsensusStatePB_invariant (cstate : ConsensusStatePB)
    (this this' : ConsensusMetadata) :
  MergeCommittedConsensusStatePB cstate this = Ok this' -> cache_invariant this'.
Proof.
  unfold MergeCommittedConsensusStatePB. intros H.
  apply bind_Ok_inv in H as (term & _ & H).
  apply bind_Ok_inv in H as (this1 & _ & H).
  apply bind_Ok_inv in H as (this2 & _ & H).
  apply bind_Ok_inv in H as (this3 & _ & H).
  apply UpdateActiveRole_invariant in H. exact H.
Qed.

Lemma apply_mutator_invariant (m : Mutator) (this this' : ConsensusMetadata) :
  cache_invariant this -> apply_mutator m this = Ok this' ->
  cache_invariant this'.
Proof.
  intros Hinv H. destruct m; simpl in H.
  - eapply set_current_term_invariant; eauto.
  - unfold set_voted_for in H. apply bind_Ok_inv in H as (_ & _ & H).
    injection H as <-. exact Hinv.
  - injection H as <-. exact Hinv.
  - eapply set_committed_config_invariant; eauto.
  - eapply UpdateActiveRole_invariant; eauto.
  - eapply UpdateActiveRole_invariant; eauto.
  - eapply UpdateActiveRole_invariant; eauto.
  - eapply MergeCommittedConsensusStatePB_invariant; eauto.
Qed.

Lemma instance_invariant (this : ConsensusMetadata) :
  instance this -> cache_invariant this.
Proof.
  induction 1 as [g fs t p this Hnew | g fs t p pb cmeta this Hnew Hload
                  | m this this' _ IH Hm | count this _ IH | size this _ IH].
  - rewrite new_ConsensusMetadata_eq in Hnew. injection Hnew as <-.
    split; [reflexivity | exact P_unknown].
  - eapply UpdateActiveRole_invariant; eauto.
  - eapply apply_mutator_invariant; eauto.
  - exact IH.
  - exact IH.
Qed.

Lemma run_mutators_invariant (ms : list Mutator) :
  forall this this',
    cache_invariant this -> run_mutators ms this = Ok this' ->
    cache_invariant this'.
Proof.
  induction ms as [|m ms IH]; intros this this' Hinv H; simpl in H.
  - injection H as <-. exact Hinv.
  - apply bind_Ok_inv in H as (this1 & Hm & H).
    eapply IH; [|exact H]. eapply apply_mutator_invariant; eauto.
Qed.

End Invariant.

Lemma run_mutators_instance (ms : list Mutator) :
  forall this this',
    instance this -> run_mutators ms this = Ok this' -> instance this'.
Proof.
  induction ms as [|m ms IH]; intros this this' Hinst H; simpl in H.
  - injection H as <-. exact Hinst.
  - apply bind_Ok_inv in H as (this1 & Hm & H).
    eapply IH; [|exact H]. eapply instance_mutated; eauto.
Qed.

Lemma instance_cache_consistent (this : ConsensusMetadata) :
  instance this -> cache_consistent this.
Proof.
  intros H. apply (instance_invariant (fun _ => True)) in H; [apply H | exact I | ].
  intros; exact I.
Qed.

(** While no term is set the cache holds the sentinel. *)
Lemma GetRoleAndTerm_unset (this : ConsensusMetadata) :
  cache_consistent this ->
  pb_has_current_term (pb_ this) = false ->
  GetRoleAndTerm this = Fatal "packed term is invalid".
Proof.
  intros Hc Hterm. unfold GetRoleAndTerm. rewrite Hc, UnpackTerm_Pack.
  unfold cached_term. rewrite Hterm. reflexivity.
Qed.

(** C1, as the code has it.  Whatever mutators have run on an object, the
    cache word is [PackRoleAndTerm] of the active role and of the current
    term, or of -1 while no term is set.  So [GetRoleAndTerm] returns the
    pair of the slow accessors when the term is set and in [0, 2^61 - 2];
    when the term is unset or out of that range the word holds the sentinel
    and [GetRoleAndTerm] is fatal. *)
Theorem role_and_term_cache_after_mutators
    (this : ConsensusMetadata) (ms : list Mutator) (this' : ConsensusMetadata) :
  (forall peer leader config,
     packable_role (GetConsensusRole peer leader config)) ->
  instance this ->
  run_mutators ms this = Ok this' ->
  role_and_term_cache_ this' =
    PackRoleAndTerm (active_role this') (cached_term this') /\
  (forall term,
     current_term_ (pb_ this') = Some term -> 0 <= term <= 2 ^ 61 - 2 ->
     current_term this' = Ok term /\
     GetRoleAndTerm this' = Ok (active_role this', term)) /\
  (is_int64 (cached_term this') -> ~ (0 <= cached_term this' <= 2 ^ 61 - 2) ->
     GetRoleAndTerm this' = Fatal "packed term is invalid").
Proof.
  intros Hroles Hinst Hrun.
  assert (Hinv : cache_invariant packable_role this').
  { apply instance_invariant; [right; reflexivity | exact Hroles |].
    eapply run_mutators_instance; eauto. }
  destruct Hinv as [Hc Hr]. split; [exact Hc|]. split.
  - intros term Hterm Hrange.
    assert (Hct : cached_term this' = term).
    { unfold cached_term, pb_has_current_term, pb_current_term.
      rewrite Hterm. reflexivity. }
    split.
    + unfold current_term, pb_has_current_term, pb_current_term.
      rewrite Hterm. cbn. rewrite DCHECK_true. reflexivity.
    + rewrite GetRoleAndTerm_consistent by assumption. rewrite Hct.
      destruct (packed_term_packable term Hrange) as [-> Hne].
      destruct (Z.eqb_spec term kTermMask); [contradiction | reflexivity].
  - intros Hint Hout.
    rewrite GetRoleAndTerm_consistent by assumption.
    rewrite packed_term_unpackable by assumption.
    rewrite Z.eqb_refl. reflexivity.
Qed.

(** C4. After [MergeCommittedConsensusStatePB(other)] there is no pending
    config, the leader is empty, the committed config is that of [other],
    and if the term of [other] was above the current term, the current term
    is now that of [other] and no vote is recorded.  The call returns in
    every release build, and in a debug build when its DCHECKs hold. *)
Theorem MergeCommittedConsensusStatePB_post (other : ConsensusStatePB)
    (this : ConsensusMetadata) :
  (DCHECK_IS_ON = true -> Merge_dchecks other this = true) ->
  exists this',
    MergeCommittedConsensusStatePB other this = Ok this' /\
    has_pending_config this' = false /\
    leader_uuid this' = "" /\
    CommittedConfig this' = Ok (cstate_committed_config other) /\
    (cstate_current_term other > pb_current_term (pb_ this) ->
     current_term this' = Ok (cstate_current_term other) /\
     has_voted_for this' = false).
Proof.
  intros Hpre. exists (merged other this).
  split; [apply MergeCommittedConsensusStatePB_eq; exact Hpre|].
  split; [reflexivity|]. split; [reflexivity|]. split.
  - unfold CommittedConfig, GetConfig. cbn. rewrite DCHECK_true. reflexivity.
  - intros Hgt. apply Z.gt_lt, Z.gtb_lt in Hgt.
    unfold current_term, has_voted_for. cbn. unfold merged_pb. rewrite Hgt.
    cbn. rewrite DCHECK_true. split; reflexivity.
Qed.

(** C10. When the term of [other] is not above the current term,
    [MergeCommittedConsensusStatePB(other)] leaves the current term and the
    vote as they were, presence and value, and still clears the leader,
    replaces the committed config and clears the pending config. *)
Theorem MergeCommittedConsensusStatePB_frame (other : ConsensusStatePB)
    (this : ConsensusMetadata) :
  (DCHECK_IS_ON = true -> Merge_dchecks other this = true) ->
  cstate_current_term other <= pb_current_term (pb_ this) ->
  exists this',
    MergeCommittedConsensusStatePB other this = Ok this' /\
    current_term_ (pb_ this') = current_term_ (pb_ this) /\
    voted_for_ (pb_ this') = voted_for_ (pb_ this) /\
    leader_uuid this' = "" /\
    committed_config_ (pb_ this') = Some (cstate_committed_config other) /\
    has_pending_config this' = false /\
    pending_config_ this' = RaftConfigPB_default.
Proof.
  intros Hpre Hle. exists (merged other this).
  split; [apply MergeCommittedConsensusStatePB_eq; exact Hpre|].
  assert (Hgt : (cstate_current_term other >? pb_current_term (pb_ this)) = false).
  { rewrite Z.gtb_ltb. apply Z.ltb_ge. exact Hle. }
  unfold merged, merged_pb. rewrite Hgt. cbn. auto 10.
Qed.

(** *** [set_current_term] *)

Fixpoint run_set_current_term (terms : list Z) (this : ConsensusMetadata)
    : Result ConsensusMetadata :=
  match terms with
  | [] => mret this
  | term :: terms =>
      this ← set_current_term term this; run_set_current_term terms this
  end.

Lemma run_set_current_term_app (terms1 terms2 : list Z) :
  forall this,
    run_set_current_term (terms1 ++ terms2) this =
    this' ← run_set_current_term terms1 this; run_set_current_term terms2 this'.
Proof.
  induction terms1 as [|t terms1 IH]; intros this; simpl.
  - reflexivity.
  - destruct (set_current_term t this) as [this1|msg]; simpl; [apply IH | reflexivity].
Qed.

Lemma run_set_current_term_returns (terms : list Z) :
  forall this,
    Forall (fun term => kMinimumTerm <= term) terms ->
    exists this', run_set_current_term terms this = Ok this'.
Proof.
  induction terms as [|t terms IH]; intros this Hall; simpl.
  - eexists. reflexivity.
  - inversion Hall as [|? ? Ht Hrest]; subst.
    rewrite set_current_term_eq by (intros _; exact Ht). simpl.
    apply IH. exact Hrest.
Qed.

(** C6, as the code has it.  Along a sequence of [set_current_term] calls
    that each meet the precondition [term >= kMinimumTerm], every call
    returns and leaves its argument as the current term: the stored term is
    never below [kMinimumTerm], and it is at or above its value before the
    call exactly when the argument is. *)
Theorem set_current_term_path (terms : list Z) (this : ConsensusMetadata) :
  Forall (fun term => kMinimumTerm <= term) terms ->
  (exists this', run_set_current_term terms this = Ok this') /\
  (forall (before : list Z) (term : Z) (rest : list Z),
     terms = (before ++ term :: rest)%list ->
     exists this1 this2,
       run_set_current_term before this = Ok this1 /\
       set_current_term term this1 = Ok this2 /\
       current_term this2 = Ok term /\
       kMinimumTerm <= pb_current_term (pb_ this2) /\
       (pb_current_term (pb_ this1) <= pb_current_term (pb_ this2) <->
        pb_current_term (pb_ this1) <= term)).
Proof.
  intros Hall. split; [apply run_set_current_term_returns; exact Hall|].
  intros before term rest ->.
  apply Forall_app in Hall as [Hbefore Hrest].
  inversion Hrest as [|? ? Hterm _]; subst.
  destruct (run_set_current_term_returns before this Hbefore) as [this1 H1].
  exists this1. eexists. split; [exact H1|].
  split; [apply set_current_term_eq; intros _; exact Hterm|].
  unfold current_term. cbn. rewrite DCHECK_true.
  split; [reflexivity|]. split; [exact Hterm | reflexivity].
Qed.

(** C9. A freshly constructed object has no current term: the constructor
    packs -1, the term field of the cache is the sentinel, and
    [GetRoleAndTerm] is fatal; and it stays fatal, whatever mutators run, for
    as long as no term is set. *)
Theorem fresh_GetRoleAndTerm_fatal (garbage : Z) (fs_manager : FsManager)
    (tablet_id peer_uuid : string) :
  exists this,
    new_ConsensusMetadata garbage fs_manager tablet_id peer_uuid = Ok this /\
    pb_has_current_term (pb_ this) = false /\
    role_and_term_cache_ this = PackRoleAndTerm UNKNOWN_ROLE (-1) /\
    term_field (role_and_term_cache_ this) = Z.shiftl 1 61 - 1 /\
    GetRoleAndTerm this = Fatal "packed term is invalid" /\
    (forall ms this',
       run_mutators ms this = Ok this' ->
       pb_has_current_term (pb_ this') = false ->
       GetRoleAndTerm this' = Fatal "packed term is invalid").
Proof.
  eexists. split; [apply new_ConsensusMetadata_eq|].
  do 4 (split; [reflexivity|]).
  intros ms this' Hrun Hterm.
  apply GetRoleAndTerm_unset; [|exact Hterm].
  apply instance_cache_consistent.
  eapply run_mutators_instance; [|exact Hrun].
  apply instance_new with (garbage := garbage) (fs_manager := fs_manager)
    (tablet_id := tablet_id) (peer_uuid := peer_uuid).
  apply new_ConsensusMetadata_eq.
Qed.

(** *** The vote *)

(** X5. A vote set with a non-empty uuid is read back: [has_voted_for] is
    true and [voted_for] returns the uuid, and the term, the committed
    config, the leader, the role and the cache word are as before; clearing
    it afterwards leaves no vote. *)
Theorem set_voted_for_read_back (uuid : string) (this : ConsensusMetadata) :
  uuid <> "" ->
  exists this' this'',
    set_voted_for uuid this = Ok this' /\
    has_voted_for this' = true /\
    voted_for this' = Ok uuid /\
    current_term_ (pb_ this') = current_term_ (pb_ this) /\
    committed_config_ (pb_ this') = committed_config_ (pb_ this) /\
    leader_uuid this' = leader_uuid this /\
    active_role this' = active_role this /\
    role_and_term_cache_ this' = role_and_term_cache_ this /\
    clear_voted_for this' = Ok this'' /\
    has_voted_for this'' = false /\
    voted_for_ (pb_ this'') = None.
Proof.
  intros Hne. unfold set_voted_for.
  assert (Hnb : negb (String.eqb uuid "") = true).
  { apply negb_true_iff, String.eqb_neq. exact Hne. }
  rewrite Hnb, DCHECK_true. cbn [mbind mret Result_bind Result_ret].
  eexists. eexists. split; [reflexivity|].
  split; [reflexivity|]. split.
  - unfold voted_for. cbn. rewrite DCHECK_true. reflexivity.
  - repeat split.
Qed.

(** X6. Reading a vote that is not there: [voted_for] on an object without
    a vote is fatal in a build with DCHECKs and returns the empty string in
    a build without; and [set_voted_for] of the empty string is fatal in
    the first and records an empty vote in the second. *)
Theorem voted_for_absent (this : ConsensusMetadata) :
  has_voted_for this = false ->
  voted_for this =
    (if DCHECK_IS_ON then Fatal "pb_.has_voted_for()" else Ok "") /\
  (if DCHECK_IS_ON
   then set_voted_for "" this = Fatal "!uuid.empty()"
   else exists this',
          set_voted_for "" this = Ok this' /\
          has_voted_for this' = true /\ voted_for this' = Ok "").
Proof.
  unfold has_voted_for, voted_for, set_voted_for, DCHECK. intros Hnone.
  rewrite Hnone. unfold pb_has_voted_for, pb_voted_for in *.
  destruct (voted_for_ (pb_ this)) as [v|] eqn:Hv; [discriminate|].
  destruct DCHECK_IS_ON; cbn.
  - split; reflexivity.
  - split; [reflexivity|]. eexists. repeat split.
Qed.

(** *** The configs *)

(** The config [ActiveConfig] returns when its DCHECK holds. *)
Definition active_config (this : ConsensusMetadata) : RaftConfigPB :=
  if has_pending_config_ this then pending_config_ this
  else pb_committed_config (pb_ this).

(** The stored role is the one [GetConsensusRole] derives from the object. *)
Definition role_derived (this : ConsensusMetadata) : Prop :=
  active_role_ this =
  GetConsensusRole (peer_uuid_ this) (leader_uuid_ this) (active_config this).

(** X7. The life of a pending config.  After [set_pending_config(config)]
    the active and the pending config are [config], the committed config is
    untouched and the role is derived from [config]; after
    [clear_pending_config] the active config is the committed one again,
    the role is derived from it, and [PendingConfig] is fatal, in every
    build. *)
Theorem pending_config_lifecycle (config : RaftConfigPB)
    (this : ConsensusMetadata) :
  (DCHECK_IS_ON = true -> pb_has_committed_config (pb_ this) = true) ->
  exists this1 this2,
    set_pending_config config this = Ok this1 /\
    has_pending_config this1 = true /\
    ActiveConfig this1 = Ok config /\
    PendingConfig this1 = Ok config /\
    committed_config_ (pb_ this1) = committed_config_ (pb_ this) /\
    active_role this1 =
      GetConsensusRole (peer_uuid_ this) (leader_uuid_ this) config /\
    clear_pending_config this1 = Ok this2 /\
    has_pending_config this2 = false /\
    ActiveConfig this2 = Ok (pb_committed_config (pb_ this)) /\
    PendingConfig this2 = Fatal "There is no pending config" /\
    active_role this2 =
      GetConsensusRole (peer_uuid_ this) (leader_uuid_ this)
        (pb_committed_config (pb_ this)).
Proof.
  intros Hcc. unfold set_pending_config, clear_pending_config.
  rewrite UpdateActiveRole_eq by reflexivity. cbn zeta.
  eexists. eexists. split; [reflexivity|].
  split; [reflexivity|]. split; [reflexivity|]. split; [reflexivity|].
  split; [reflexivity|]. split; [reflexivity|].
  rewrite UpdateActiveRole_eq by exact Hcc. cbn zeta.
  split; [reflexivity|]. split; [reflexivity|]. split.
  - apply ActiveConfig_eq. exact Hcc.
  - split; reflexivity.
Qed.

(** X8. [set_committed_config] always returns and sets the committed
    config.  While a config is pending it leaves the active config, the
    role and the cache word alone; otherwise the new config is the active
    one and the role is derived from it. *)
Theorem set_committed_config_effect (config : RaftConfigPB)
    (this : ConsensusMetadata) :
  exists this',
    set_committed_config config this = Ok this' /\
    CommittedConfig this' = Ok config /\
    current_term_ (pb_ this') = current_term_ (pb_ this) /\
    voted_for_ (pb_ this') = voted_for_ (pb_ this) /\
    if has_pending_config this
    then ActiveConfig this' = Ok (pending_config_ this) /\
         active_role this' = active_role this /\
         role_and_term_cache_ this' = role_and_term_cache_ this
    else ActiveConfig this' = Ok config /\
         active_role this' =
           GetConsensusRole (peer_uuid_ this) (leader_uuid_ this) config.
Proof.
  unfold set_committed_config, has_pending_config. cbn zeta. cbn [has_pending_config_ with_pb].
  destruct (has_pending_config_ this) eqn:Hp; cbn [negb].
  - eexists. split; [reflexivity|].
    unfold CommittedConfig, ActiveConfig, GetConfig. cbn. rewrite Hp, DCHECK_true.
    repeat split.
  - rewrite UpdateActiveRole_eq by (intros _; rewrite orb_true_r; reflexivity).
    cbn zeta. cbn [has_pending_config_ with_pb]. rewrite Hp.
    eexists. split; [reflexivity|].
    unfold CommittedConfig, ActiveConfig, GetConfig. cbn. rewrite Hp, DCHECK_true.
    repeat split.
Qed.

(** *** The derived role *)

Lemma UpdateActiveRole_derived (this this' : ConsensusMetadata) :
  UpdateActiveRole this = Ok this' -> role_derived this'.
Proof.
  unfold UpdateActiveRole, ActiveConfig, GetConfig. intros H.
  apply bind_Ok_inv in H as (config & Hconfig & H).
  rewrite UpdateRoleAndTermCache_eq in H. injection H as <-.
  unfold role_derived, active_config. cbn.
  destruct (has_pending_config_ this).
  - injection Hconfig as <-. reflexivity.
  - apply bind_Ok_inv in Hconfig as (_ & _ & Hconfig).
    injection Hconfig as <-. reflexivity.
Qed.

Lemma set_current_term_inv (term : Z) (this this' : ConsensusMetadata) :
  set_current_term term this = Ok this' ->
  this' = with_role_and_term_cache (PackRoleAndTerm (active_role_ this) term)
            (with_pb (pb_set_current_term term (pb_ this)) this).
Proof.
  unfold set_current_term. intros H.
  apply bind_Ok_inv in H as (_ & _ & H).
  rewrite UpdateRoleAndTermCache_eq in H. injection H as <-. reflexivity.
Qed.

Lemma set_current_term_derived (term : Z) (this this' : ConsensusMetadata) :
  role_derived this -> set_current_term term this = Ok this' ->
  role_derived this'.
Proof. intros Hd H. apply set_current_term_inv in H as ->. exact Hd. Qed.

Lemma apply_mutator_derived (m : Mutator) (this this' : ConsensusMetadata) :
  role_derived this -> apply_mutator m this = Ok this' -> role_derived this'.
Proof.
  intros Hd H. destruct m; simpl in H.
  - eapply set_current_term_derived; eauto.
  - unfold set_voted_for in H. apply bind_Ok_inv in H as (_ & _ & H).
    injection H as <-. exact Hd.
  - injection H as <-. exact Hd.
  - unfold set_committed_config in H. cbn zeta in H.
    cbn [has_pending_config_ with_pb] in H.
    destruct (has_pending_config_ this) eqn:Hp; cbn [negb] in H.
    + injection H as <-. unfold role_derived, active_config in *. cbn.
      rewrite Hp in *. exact Hd.
    + eapply UpdateActiveRole_derived; eauto.
  - eapply UpdateActiveRole_derived; eauto.
  - eapply UpdateActiveRole_derived; eauto.
  - eapply UpdateActiveRole_derived; eauto.
  - unfold MergeCommittedConsensusStatePB in H.
    apply bind_Ok_inv in H as (term & _ & H).
    apply bind_Ok_inv in H as (this1 & _ & H).
    apply bind_Ok_inv in H as (this2 & _ & H).
    apply bind_Ok_inv in H as (this3 & _ & H).
    eapply UpdateActiveRole_derived; eauto.
Qed.

(** X9. Once the stored role is the role [GetConsensusRole] derives from
    the peer, the leader and the active config, it stays so under every
    sequence of mutators; and each of [set_pending_config],
    [clear_pending_config], [set_leader_uuid] and
    [MergeCommittedConsensusStatePB] makes it so, whatever the role was
    before. *)
Theorem role_derived_kept (this : ConsensusMetadata) (ms : list Mutator)
    (this' : ConsensusMetadata) :
  run_mutators ms this = Ok this' ->
  (role_derived this \/
   exists m ms',
     ms = m :: ms' /\
     match m with
     | call_set_pending_config _ | call_clear_pending_config
     | call_set_leader_uuid _ | call_MergeCommittedConsensusStatePB _ => True
     | _ => False
     end) ->
  role_derived this'.
Proof.
  assert (Hkept : forall ms this this',
             role_derived this -> run_mutators ms this = Ok this' ->
             role_derived this').
  { clear. induction ms as [|m ms IH]; intros this this' Hd H; simpl in H.
    - injection H as <-. exact Hd.
    - apply bind_Ok_inv in H as (this1 & Hm & H).
      eapply IH; [|exact H]. eapply apply_mutator_derived; eauto. }
  intros Hrun [Hd | (m & ms' & -> & Hm)].
  - eapply Hkept; eauto.
  - simpl in Hrun. apply bind_Ok_inv in Hrun as (this1 & H1 & Hrun).
    eapply Hkept; [|exact Hrun].
    destruct m; try contradiction; simpl in H1.
    + eapply UpdateActiveRole_derived; eauto.
    + eapply UpdateActiveRole_derived; eauto.
    + eapply UpdateActiveRole_derived; eauto.
    + unfold MergeCommittedConsensusStatePB in H1.
      apply bind_Ok_inv in H1 as (term & _ & H1).
      apply bind_Ok_inv in H1 as (t1 & _ & H1).
      apply bind_Ok_inv in H1 as (t2 & _ & H1).
      apply bind_Ok_inv in H1 as (t3 & _ & H1).
      eapply UpdateActiveRole_derived; eauto.
Qed.

(** *** What the mutators leave alone *)

(** The identity of the object and the two counters of the durable path. *)
Definition same_identity (this this' : ConsensusMetadata) : Prop :=
  fs_manager_ this' = fs_manager_ this /\
  tablet_id_ this' = tablet_id_ this /\
  peer_uuid_ this' = peer_uuid_ this /\
  flush_count_for_tests_ this' = flush_count_for_tests_ this /\
  on_disk_size_ this' = on_disk_size_ this.

Lemma same_identity_refl (this : ConsensusMetadata) : same_identity this this.
Proof. repeat split. Qed.

Lemma same_identity_trans (this1 this2 this3 : ConsensusMetadata) :
  same_identity this1 this2 -> same_identity this2 this3 ->
  same_identity this1 this3.
Proof.
  unfold same_identity. intros (A1 & A2 & A3 & A4 & A5) (B1 & B2 & B3 & B4 & B5).
  repeat split; congruence.
Qed.

Lemma UpdateActiveRole_identity (this this' : ConsensusMetadata) :
  UpdateActiveRole this = Ok this' -> same_identity this this'.
Proof.
  intros H. apply UpdateActiveRole_inv in H as (role & -> & _). repeat split.
Qed.

Lemma set_committed_config_identity (config : RaftConfigPB)
    (this this' : ConsensusMetadata) :
  set_committed_config config this = Ok this' -> same_identity this this'.
Proof.
  unfold set_committed_config. cbn zeta. cbn [has_pending_config_ with_pb].
  destruct (has_pending_config_ this); cbn [negb]; intros H.
  - injection H as <-. repeat split.
  - apply UpdateActiveRole_identity in H. exact H.
Qed.

Lemma apply_mutator_identity (m : Mutator) (this this' : ConsensusMetadata) :
  apply_mutator m this = Ok this' -> same_identity this this'.
Proof.
  intros H. destruct m; simpl in H.
  - apply set_current_term_inv in H as ->. repeat split.
  - unfold set_voted_for in H. apply bind_Ok_inv in H as (_ & _ & H).
    injection H as <-. repeat split.
  - injection H as <-. repeat split.
  - eapply set_committed_config_identity; eauto.
  - apply UpdateActiveRole_identity in H. exact H.
  - apply UpdateActiveRole_identity in H. exact H.
  - apply UpdateActiveRole_identity in H. exact H.
  - unfold MergeCommittedConsensusStatePB in H.
    apply bind_Ok_inv in H as (term & _ & H).
    apply bind_Ok_inv in H as (this1 & H1 & H).
    apply bind_Ok_inv in H as (this2 & H2 & H).
    apply bind_Ok_inv in H as (this3 & H3 & H).
    assert (S1 : same_identity this this1).
    { destruct (cstate_current_term cstate >? term).
      - apply bind_Ok_inv in H1 as (this0 & H0 & H1).
        apply set_current_term_inv in H0 as ->. injection H1 as <-.
        repeat split.
      - injection H1 as <-. apply same_identity_refl. }
    apply UpdateActiveRole_identity in H2, H.
    apply set_committed_config_identity in H3.
    eapply same_identity_trans; [exact S1|].
    eapply same_identity_trans; [exact H2|].
    eapply same_identity_trans; [exact H3 | exact H].
Qed.

(** X10. No sequence of mutators changes the identity of the object (its
    filesystem manager, tablet id and peer uuid), its flush counter or its
    recorded size on disk. *)
Theorem mutators_keep_identity (ms : list Mutator) :
  forall this this',
    run_mutators ms this = Ok this' ->
    fs_manager_ this' = fs_manager_ this /\
    tablet_id_ this' = tablet_id_ this /\
    peer_uuid_ this' = peer_uuid_ this /\
    flush_count_for_tests_ this' = flush_count_for_tests_ this /\
    on_disk_size_ this' = on_disk_size_ this.
Proof.
  induction ms as [|m ms IH]; intros this this' H; simpl in H.
  - injection H as <-. repeat split.
  - apply bind_Ok_inv in H as (this1 & Hm & H).
    apply apply_mutator_identity in Hm. apply IH in H.
    exact (same_identity_trans _ _ _ Hm H).
Qed.

(** *** Merging *)

Lemma merged_merged (cstate : ConsensusStatePB) (this : ConsensusMetadata) :
  merged cstate (merged cstate this) = merged cstate this.
Proof.
  unfold merged. cbn [pb_ peer_uuid_ fs_manager_ tablet_id_
                        flush_count_for_tests_ on_disk_size_].
  assert (Hpb : merged_pb cstate (merged_pb cstate (pb_ this))
                = merged_pb cstate (pb_ this)).
  { unfold merged_pb.
    destruct (cstate_current_term cstate >? pb_current_term (pb_ this)) eqn:Ha.
    - cbn. rewrite Z.gtb_ltb, Z.ltb_irrefl. reflexivity.
    - cbn. unfold pb_current_term in Ha. rewrite Ha. reflexivity. }
  rewrite Hpb. reflexivity.
Qed.

Lemma Merge_dchecks_merged (cstate : ConsensusStatePB) (this : ConsensusMetadata) :
  Merge_dchecks cstate this = true ->
  Merge_dchecks cstate (merged cstate this) = true.
Proof.
  unfold Merge_dchecks, merged, merged_pb. cbn.
  intros H. apply andb_true_iff in H as [H _].
  apply andb_true_iff in H as [Hterm _].
  destruct (cstate_current_term cstate >? pb_current_term (pb_ this)) eqn:Ha; cbn.
  - rewrite Z.gtb_ltb, Z.ltb_irrefl. reflexivity.
  - unfold pb_has_current_term, pb_current_term in *.
    cbn [pb_set_committed_config current_term_]. rewrite Hterm, Ha.
    reflexivity.
Qed.

(** X11. Merging is idempotent: merging the same state a second time
    returns the object the first merge left, unchanged. *)
Theorem MergeCommittedConsensusStatePB_idempotent (cstate : ConsensusStatePB)
    (this : ConsensusMetadata) :
  (DCHECK_IS_ON = true -> Merge_dchecks cstate this = true) ->
  exists this',
    MergeCommittedConsensusStatePB cstate this = Ok this' /\
    MergeCommittedConsensusStatePB cstate this' = Ok this'.
Proof.
  intros Hpre. exists (merged cstate this).
  split; [apply MergeCommittedConsensusStatePB_eq; exact Hpre|].
  rewrite MergeCommittedConsensusStatePB_eq.
  - rewrite merged_merged. reflexivity.
  - intros Hd. apply Merge_dchecks_merged. exact (Hpre Hd).
Qed.


(** *** The durable path, once more *)

Section DurableFacts.

Variable VerifyRaftConfig : RaftConfigPB -> Status.
Variable DirName : string -> string.
Variable FLAGS : Flags.

Variable Env : Type.
Variable CreateDirIfMissing : string -> Env -> Status * bool * Env.
Variable SyncDir : string -> Env -> Status * Env.
Variable WritePBContainerToPath :
  string -> ConsensusMetadataPB -> PBCreateMode -> PBSyncMode -> Env -> Status * Env.
Variable ReadPBContainerFromPath : string -> Env -> Status * ConsensusMetadataPB.
Variable GetFileSize : string -> Env -> Status * Z.
Variable FileExists : string -> Env -> bool.

#[local] Abbreviation Flush_ :=
  (Flush VerifyRaftConfig DirName FLAGS Env CreateDirIfMissing SyncDir
     WritePBContainerToPath GetFileSize).
#[local] Abbreviation Create_ :=
  (Create VerifyRaftConfig DirName FLAGS Env CreateDirIfMissing SyncDir
     WritePBContainerToPath GetFileSize FileExists).
#[local] Abbreviation Load_ := (Load Env ReadPBContainerFromPath GetFileSize).
#[local] Abbreviation env_of := (w_env Env).
#[local] Abbreviation calls_of := (w_calls Env).
#[local] Abbreviation world := (mkWorld Env).

(** X13. A [Flush] that returns, with whatever status, has counted itself
    once and has changed nothing else of the object but, at most, the
    recorded size on disk: the message, the pending config, the leader, the
    role, the cache word and the identity are as before. *)
Theorem Flush_keeps_state (flush_mode : FlushMode) (draw : Q)
    (this this' : ConsensusMetadata) (s : Status) (w w' : World Env) :
  Flush_ flush_mode draw this w = (Ok (s, this'), w') ->
  flush_count_for_tests_ this' = flush_count_for_tests_ this + 1 /\
  pb_ this' = pb_ this /\
  has_pending_config_ this' = has_pending_config_ this /\
  pending_config_ this' = pending_config_ this /\
  leader_uuid_ this' = leader_uuid_ this /\
  active_role_ this' = active_role_ this /\
  role_and_term_cache_ this' = role_and_term_cache_ this /\
  fs_manager_ this' = fs_manager_ this /\
  tablet_id_ this' = tablet_id_ this /\
  peer_uuid_ this' = peer_uuid_ this.
Proof.
  intros H. apply Flush_inv in H. cbv zeta in H.
  destruct H as [-> | [size ->]]; repeat split.
Qed.

(** The filesystem calls of a [Flush] that runs to its end, given whether
    the directory had to be created. *)
Definition Flush_calls (flush_mode : FlushMode) (this : ConsensusMetadata)
    (created_dir : bool) : list EnvCall :=
  let dir := GetConsensusMetadataDir (fs_manager_ this) in
  let path := GetConsensusMetadataPath (fs_manager_ this) (tablet_id_ this) in
  ([CallCreateDirIfMissing dir]
   ++ (if created_dir then [CallSyncDir (DirName dir)] else [])
   ++ [CallWritePBContainerToPath path (pb_ this)
         (match flush_mode with
          | OVERWRITE => pb_OVERWRITE
          | NO_OVERWRITE => pb_NO_OVERWRITE
          end)
         (if FLAGS_log_force_fsync_all FLAGS
             || (FLAGS_cmeta_force_fsync FLAGS
                 || (FLAGS_cmeta_fsync_override_on_xfs FLAGS
                     && meta_on_xfs (fs_manager_ this)))
          then pb_SYNC else pb_NO_SYNC);
       CallGetFileSize path])%list.

(** X14. The filesystem calls of [Flush] are an initial part of: create
    the directory if missing; sync its parent, only if the directory was
    created; write the object's message to the tablet's path, overwriting
    or not as the mode says and syncing exactly when one of the three flags
    asks for it; read the file size.  A [Flush] that returns OK has made
    them all. *)
Theorem Flush_calls_in_order (flush_mode : FlushMode) (draw : Q)
    (this : ConsensusMetadata) (w : World Env) :
  let created_dir :=
    snd (fst (CreateDirIfMissing (GetConsensusMetadataDir (fs_manager_ this))
                (env_of w))) in
  exists n,
    calls_of (snd (Flush_ flush_mode draw this w)) =
      (calls_of w ++ firstn n (Flush_calls flush_mode this created_dir))%list /\
    (forall s this',
       fst (Flush_ flush_mode draw this w) = Ok (s, this') -> ok s = true ->
       n = length (Flush_calls flush_mode this created_dir)).
Proof.
  cbv zeta. unfold Flush, UpdateOnDiskSize, lift, query, call.
  unfold mbind, IO_bind, mret, IO_ret. unfold Flush_calls.
  destruct (MAYBE_FAULT (FLAGS_fault_crash_before_cmeta_flush FLAGS) draw)
    as [[]|msg].
  2:{ exists 0%nat. cbn. rewrite app_nil_r. split; [reflexivity | discriminate]. }
  cbn [pb_ fs_manager_ tablet_id_ with_flush_count].
  destruct (ok (VerifyRaftConfig (pb_committed_config (pb_ this)))) eqn:Hverify;
    cbn [negb].
  2:{ exists 0%nat. cbn. rewrite app_nil_r. split; [reflexivity|].
      intros s this' Heq Hok. injection Heq as <- _.
      apply (CloneAndPrepend_error
               "Invalid config in ConsensusMetadata, cannot flush to disk")
        in Hverify as [Hbad _].
      congruence. }
  cbn [w_env w_calls].
  destruct (CreateDirIfMissing (GetConsensusMetadataDir (fs_manager_ this))
              (env_of w)) as [[s1 created_dir] env1].
  cbn [fst snd w_env w_calls].
  destruct (ok s1) eqn:Hs1; cbn [negb w_env w_calls].
  2:{ exists 1%nat. cbn. split; [reflexivity|].
      intros s this' Heq Hok. injection Heq as <- _.
      apply (CloneAndPrepend_error
               "Unable to create consensus metadata root dir") in Hs1 as [Hbad _].
      congruence. }
  destruct created_dir; cbn [w_env w_calls].
  - destruct (SyncDir (DirName (GetConsensusMetadataDir (fs_manager_ this))) env1)
      as [s2 env2].
    cbn [w_env w_calls].
    destruct (ok s2) eqn:Hs2; cbn [negb w_env w_calls].
    2:{ exists 2%nat. cbn. rewrite <- app_assoc. split; [reflexivity|].
        intros s this' Heq Hok. injection Heq as <- _.
        match type of Hok with
        | ok (CloneAndPrepend ?msg _) = _ =>
            apply (CloneAndPrepend_error msg) in Hs2 as [Hbad _]
        end.
        congruence. }
    match goal with
    | |- context [WritePBContainerToPath ?p ?pb ?c ?y env2] =>
        destruct (WritePBContainerToPath p pb c y env2) as [s3 env3]
    end.
    cbn [w_env w_calls].
    destruct (ok s3) eqn:Hs3; cbn [negb w_env w_calls].
    2:{ exists 3%nat. cbn. rewrite <- !app_assoc. split; [reflexivity|].
        intros s this' Heq Hok. injection Heq as <- _.
        match type of Hok with
        | ok (CloneAndPrepend ?msg _) = _ =>
            apply (CloneAndPrepend_error msg) in Hs3 as [Hbad _]
        end.
        congruence. }
    exists 4%nat.
    match goal with
    | |- context [GetFileSize ?p env3] =>
        destruct (GetFileSize p env3) as [s4 size]
    end.
    destruct (ok s4); cbn; rewrite <- !app_assoc; split; reflexivity.
  - cbn [ok Status_OK code negb w_env w_calls].
    match goal with
    | |- context [WritePBContainerToPath ?p ?pb ?c ?y env1] =>
        destruct (WritePBContainerToPath p pb c y env1) as [s3 env3]
    end.
    cbn [w_env w_calls].
    destruct (ok s3) eqn:Hs3; cbn [negb w_env w_calls].
    2:{ exists 2%nat. cbn. rewrite <- !app_assoc. split; [reflexivity|].
        intros s this' Heq Hok. injection Heq as <- _.
        match type of Hok with
        | ok (CloneAndPrepend ?msg _) = _ =>
            apply (CloneAndPrepend_error msg) in Hs3 as [Hbad _]
        end.
        congruence. }
    exists 3%nat.
    match goal with
    | |- context [GetFileSize ?p env3] =>
        destruct (GetFileSize p env3) as [s4 size]
    end.
    destruct (ok s4); cbn; rewrite <- !app_assoc; split; reflexivity.
Qed.

(** The object [Create] has made when it turns to the filesystem. *)
Definition created (fs_manager : FsManager) (tablet_id peer_uuid : string)
    (config : RaftConfigPB) (term : Z) : ConsensusMetadata :=
  let role := GetConsensusRole peer_uuid "" config in
  mkConsensusMetadata fs_manager tablet_id peer_uuid
    (mkConsensusMetadataPB (Some config) (Some term) None)
    false RaftConfigPB_default "" role (PackRoleAndTerm role term) 0 0.

Lemma call_inv {A : Type} (c : EnvCall) (f : Env -> A * Env)
    (w w' : World Env) (a : A) :
  call Env c f w = (Ok a, w') ->
  a = fst (f (env_of w)) /\
  w' = world (snd (f (env_of w))) (calls_of w ++ [c]).
Proof.
  unfold call. destruct (f (env_of w)) as [a0 env]. cbn [fst snd].
  intros H. injection H as <- <-. split; reflexivity.
Qed.

Lemma lift_Ok_inv {A : Type} (r : Result A) (w w' : World Env) (a : A) :
  lift Env r w = (Ok a, w') -> r = Ok a /\ w' = w.
Proof. unfold lift. intros H. injection H as -> ->. split; reflexivity. Qed.

Lemma Create_inv (garbage : Z) (fs_manager : FsManager)
    (tablet_id peer_uuid : string) (config : RaftConfigPB) (term : Z)
    (create_mode : ConsensusMetadataCreateMode) (draw : Q)
    (r : Status * option ConsensusMetadata) (w w' : World Env) :
  Create_ garbage fs_manager tablet_id peer_uuid config term create_mode draw w
    = (Ok r, w') ->
  let cmeta := created fs_manager tablet_id peer_uuid config term in
  match create_mode with
  | FLUSH_ON_CREATE =>
      exists s cmeta',
        Flush_ NO_OVERWRITE draw cmeta w = (Ok (s, cmeta'), w') /\
        r = if negb (ok s) then (s, None) else (Status_OK, Some cmeta')
  | NO_FLUSH_ON_CREATE =>
      let path := GetConsensusMetadataPath fs_manager tablet_id in
      w' = world (env_of w) (calls_of w ++ [CallFileExists path]) /\
      r = if FileExists path (env_of w)
          then (mkStatus kAlreadyPresent ("File " ++ path ++ " already exists"),
                None)
          else (Status_OK, Some cmeta)
  end.
Proof.
  unfold Create. intros H.
  apply IO_bind_inv in H as (c0 & w0 & H0 & H).
  apply lift_Ok_inv in H0 as [H0 ->].
  rewrite new_ConsensusMetadata_eq in H0. injection H0 as <-.
  apply IO_bind_inv in H as (c1 & w1 & H1 & H).
  apply lift_Ok_inv in H1 as [H1 ->].
  unfold set_committed_config in H1. cbn zeta in H1.
  cbn [has_pending_config_ with_pb negb] in H1.
  rewrite UpdateActiveRole_eq in H1 by reflexivity. injection H1 as <-.
  apply IO_bind_inv in H as (c2 & w2 & H2 & H).
  apply lift_Ok_inv in H2 as [H2 ->].
  apply set_current_term_inv in H2. cbn in H2. subst c2.
  cbv zeta. fold (created fs_manager tablet_id peer_uuid config term) in H.
  destruct create_mode.
  - apply IO_bind_inv in H as ([s c3] & w3 & Hflush & H).
    exists s, c3. destruct (negb (ok s)); injection H as <- <-; auto.
  - cbv zeta in H. apply IO_bind_inv in H as (exists_ & w3 & Hq & H).
    unfold query in Hq. apply call_inv in Hq as [-> ->]. cbn [fst snd] in *.
    destruct (FileExists _ (env_of w)); injection H as <- <-; auto.
Qed.

(** X15. [Create] without a flush touches nothing on disk: its one call to
    the filesystem asks whether the tablet's file exists.  If it does, the
    status is AlreadyPresent, naming the file, and no object is returned;
    if it does not, the status is OK and the object is returned. *)
Theorem Create_without_flush (garbage : Z) (fs_manager : FsManager)
    (tablet_id peer_uuid : string) (config : RaftConfigPB) (term : Z)
    (draw : Q) (w : World Env) :
  (DCHECK_IS_ON = true -> kMinimumTerm <= term) ->
  let path := GetConsensusMetadataPath fs_manager tablet_id in
  exists s cmeta_out,
    Create_ garbage fs_manager tablet_id peer_uuid config term
      NO_FLUSH_ON_CREATE draw w
      = (Ok (s, cmeta_out), world (env_of w) (calls_of w ++ [CallFileExists path]))
    /\
    if FileExists path (env_of w)
    then code s = kAlreadyPresent /\
         message s = "File " ++ path ++ " already exists" /\
         cmeta_out = None
    else s = Status_OK /\ exists cmeta, cmeta_out = Some cmeta.
Proof.
  intros Hterm. cbv zeta.
  destruct (Create_ garbage fs_manager tablet_id peer_uuid config term
              NO_FLUSH_ON_CREATE draw w) as [[r|msg] w'] eqn:Hc.
  - apply Create_inv in Hc. cbv zeta in Hc. destruct Hc as [-> ->].
    destruct (FileExists _ (env_of w)); eexists; eexists;
      (split; [reflexivity|]); cbn; eauto.
  - exfalso. unfold Create in Hc.
    unfold mbind, IO_bind, lift, query, call, mret, IO_ret in Hc.
    rewrite new_ConsensusMetadata_eq in Hc. cbv beta iota in Hc.
    unfold set_committed_config in Hc.
    cbn [has_pending_config_ with_pb negb] in Hc. cbv zeta in Hc.
    rewrite UpdateActiveRole_eq in Hc by reflexivity. cbv beta iota zeta in Hc.
    rewrite set_current_term_eq in Hc by exact Hterm. cbv beta iota in Hc.
    destruct (FileExists _ (env_of w)); discriminate.
Qed.

(** X16. The object [Create] returns, in either mode: its status is OK;
    the committed config and the term are the ones given, there is no vote,
    no pending config and no leader; the role is derived from the given
    config with no leader, and the cache word packs that role and the
    term; it has been flushed once if the mode says so, and never
    otherwise. *)
Theorem Create_returns_object (garbage : Z) (fs_manager : FsManager)
    (tablet_id peer_uuid : string) (config : RaftConfigPB) (term : Z)
    (create_mode : ConsensusMetadataCreateMode) (draw : Q)
    (s : Status) (cmeta : ConsensusMetadata) (w w' : World Env) :
  Create_ garbage fs_manager tablet_id peer_uuid config term create_mode draw w
    = (Ok (s, Some cmeta), w') ->
  s = Status_OK /\
  pb_ cmeta = mkConsensusMetadataPB (Some config) (Some term) None /\
  has_pending_config cmeta = false /\
  leader_uuid cmeta = "" /\
  active_role cmeta = GetConsensusRole peer_uuid "" config /\
  role_and_term_cache_ cmeta = PackRoleAndTerm (active_role cmeta) term /\
  fs_manager_ cmeta = fs_manager /\
  tablet_id_ cmeta = tablet_id /\
  peer_uuid_ cmeta = peer_uuid /\
  flush_count_for_tests_ cmeta =
    match create_mode with FLUSH_ON_CREATE => 1 | NO_FLUSH_ON_CREATE => 0 end.
Proof.
  intros H. apply Create_inv in H. cbv zeta in H. destruct create_mode.
  - destruct H as (s1 & c3 & Hflush & Hr).
    destruct (negb (ok s1)); [discriminate|]. injection Hr as -> <-.
    apply Flush_keeps_state in Hflush
      as (Hcount & Hpb & Hp & _ & Hl & Hrole & Hcache & Hfs & Htid & Hpeer).
    unfold has_pending_config, leader_uuid, active_role.
    rewrite Hcount, Hpb, Hp, Hl, Hrole, Hcache, Hfs, Htid, Hpeer.
    repeat split.
  - destruct H as [_ Hr].
    destruct (FileExists _ (env_of w)); [discriminate|].
    injection Hr as -> ->. repeat split.
Qed.

(** The object [Load] makes of a message read from disk and of the size
    of the file. *)
Definition loaded (fs_manager : FsManager) (tablet_id peer_uuid : string)
    (pb : ConsensusMetadataPB) (size : Z) : ConsensusMetadata :=
  let role := GetConsensusRole peer_uuid "" (pb_committed_config pb) in
  mkConsensusMetadata fs_manager tablet_id peer_uuid pb
    false RaftConfigPB_default "" role
    (PackRoleAndTerm role
       (if pb_has_current_term pb then pb_current_term pb else -1))
    0 size.

Lemma Load_eq (garbage : Z) (fs_manager : FsManager)
    (tablet_id peer_uuid : string) (w : World Env) :
  let path := GetConsensusMetadataPath fs_manager tablet_id in
  let read := ReadPBContainerFromPath path (env_of w) in
  let size := GetFileSize path (env_of w) in
  (DCHECK_IS_ON = true -> ok (fst read) = true ->
   pb_has_committed_config (snd read) = true) ->
  Load_ garbage fs_manager tablet_id peer_uuid w =
  if negb (ok (fst read))
  then (Ok (fst read, None),
        world (env_of w) (calls_of w ++ [CallReadPBContainerFromPath path]))
  else (Ok (if negb (ok (fst size)) then (fst size, None)
            else (Status_OK,
                  Some (loaded fs_manager tablet_id peer_uuid
                          (snd read) (snd size)))),
        world (env_of w)
          ((calls_of w ++ [CallReadPBContainerFromPath path])
             ++ [CallGetFileSize path])).
Proof.
  cbv zeta. intros Hcc. unfold Load, UpdateOnDiskSize.
  unfold mbind, IO_bind, lift, query, call, mret, IO_ret.
  rewrite new_ConsensusMetadata_eq. cbv beta iota zeta.
  cbn [w_env w_calls].
  destruct (ReadPBContainerFromPath (GetConsensusMetadataPath fs_manager tablet_id)
              (env_of w)) as [s1 pb].
  cbn [fst snd] in *.
  destruct (ok s1) eqn:Hs1; cbn [negb]; [|reflexivity].
  rewrite UpdateActiveRole_eq by (intros Hd; cbn; exact (Hcc Hd eq_refl)).
  cbv beta iota zeta. cbn [w_env w_calls tablet_id_ fs_manager_
    with_role_and_term_cache with_active_role with_pb].
  destruct (GetFileSize (GetConsensusMetadataPath fs_manager tablet_id) (env_of w))
    as [s2 size].
  cbn [fst snd]. cbv beta iota zeta.
  destruct (ok s2) eqn:Hs2; cbn [negb]; cbv beta iota.
  - cbn [ok Status_OK code negb]. reflexivity.
  - rewrite Hs2. reflexivity.
Qed.

(** X17. What [Load] returns.  If the file cannot be read, the status of
    the read and no object; else, if its size cannot be read, that status
    and no object; else OK and an object that holds the message read, with
    no pending config and no leader, the role derived from the committed
    config of the message, the cache word packing that role and the term
    of the message, the size of the file, and a flush count of zero. *)
Theorem Load_result (garbage : Z) (fs_manager : FsManager)
    (tablet_id peer_uuid : string) (w : World Env) :
  let path := GetConsensusMetadataPath fs_manager tablet_id in
  let read := ReadPBContainerFromPath path (env_of w) in
  let size := GetFileSize path (env_of w) in
  (DCHECK_IS_ON = true -> ok (fst read) = true ->
   pb_has_committed_config (snd read) = true) ->
  exists s cmeta_out w',
    Load_ garbage fs_manager tablet_id peer_uuid w = (Ok (s, cmeta_out), w') /\
    if negb (ok (fst read)) then s = fst read /\ cmeta_out = None
    else if negb (ok (fst size)) then s = fst size /\ cmeta_out = None
    else
      s = Status_OK /\
      exists cmeta,
        cmeta_out = Some cmeta /\
        pb_ cmeta = snd read /\
        has_pending_config cmeta = false /\
        leader_uuid cmeta = "" /\
        active_role cmeta =
          GetConsensusRole peer_uuid "" (pb_committed_config (snd read)) /\
        role_and_term_cache_ cmeta =
          PackRoleAndTerm (active_role cmeta) (cached_term cmeta) /\
        on_disk_size_ cmeta = snd size /\
        flush_count_for_tests_ cmeta = 0 /\
        tablet_id_ cmeta = tablet_id /\
        peer_uuid_ cmeta = peer_uuid.
Proof.
  cbv zeta. intros Hcc.
  rewrite (Load_eq garbage fs_manager tablet_id peer_uuid w Hcc).
  destruct (negb (ok (fst (ReadPBContainerFromPath _ (env_of w))))).
  - eexists. eexists. eexists. split; [reflexivity|]. split; reflexivity.
  - destruct (negb (ok (fst (GetFileSize _ (env_of w))))).
    + eexists. eexists. eexists. split; [reflexivity|]. split; reflexivity.
    + eexists. eexists. eexists. split; [reflexivity|].
      split; [reflexivity|]. eexists. split; [reflexivity|]. repeat split.
Qed.

(** What a [Flush] that returns OK has done on disk. *)
Lemma Flush_OK_inv (flush_mode : FlushMode) (draw : Q)
    (this this' : ConsensusMetadata) (s : Status) (w w' : World Env) :
  Flush_ flush_mode draw this w = (Ok (s, this'), w') ->
  ok s = true ->
  let path := GetConsensusMetadataPath (fs_manager_ this) (tablet_id_ this) in
  exists env create sync,
    ok (fst (WritePBContainerToPath path (pb_ this) create sync env)) = true /\
    env_of w' = snd (WritePBContainerToPath path (pb_ this) create sync env) /\
    ok (fst (GetFileSize path (env_of w'))) = true /\
    this' = with_on_disk_size (snd (GetFileSize path (env_of w')))
              (with_flush_count (flush_count_for_tests_ this + 1) this).
Proof.
  intros H Hok. unfold Flush, UpdateOnDiskSize in H.
  unfold mret, IO_ret in H. cbv zeta.
  apply IO_bind_inv in H as ([] & w0 & _ & H). cbv zeta in H.
  cbn [pb_ with_flush_count fs_manager_ tablet_id_] in H.
  match type of H with
  | context [ok (VerifyRaftConfig ?config)] =>
      destruct (ok (VerifyRaftConfig config)) eqn:Hv
  end; cbn [negb] in H.
  2:{ injection H as <- _ _.
      match type of Hok with
      | ok (CloneAndPrepend ?msg _) = _ =>
          apply (CloneAndPrepend_error msg) in Hv as [Hbad _]
      end. congruence. }
  apply IO_bind_inv in H as ([s1 created_dir] & w1 & _ & H).
  destruct (ok s1) eqn:Hs1; cbn [negb] in H.
  2:{ injection H as <- _ _.
      match type of Hok with
      | ok (CloneAndPrepend ?msg _) = _ =>
          apply (CloneAndPrepend_error msg) in Hs1 as [Hbad _]
      end. congruence. }
  apply IO_bind_inv in H as (s2 & w2 & _ & H).
  destruct (ok s2) eqn:Hs2; cbn [negb] in H.
  2:{ injection H as <- _ _.
      match type of Hok with
      | ok (CloneAndPrepend ?msg _) = _ =>
          apply (CloneAndPrepend_error msg) in Hs2 as [Hbad _]
      end. congruence. }
  apply IO_bind_inv in H as (s3 & w3 & Hwrite & H).
  apply call_inv in Hwrite as [Hs3eq ->].
  destruct (ok s3) eqn:Hs3; cbn [negb] in H.
  2:{ injection H as <- _ _.
      match type of Hok with
      | ok (CloneAndPrepend ?msg _) = _ =>
          apply (CloneAndPrepend_error msg) in Hs3 as [Hbad _]
      end. congruence. }
  apply IO_bind_inv in H as ([s4 size] & w4 & Hsize & H).
  unfold query in Hsize. apply call_inv in Hsize as [Hs4eq ->].
  cbn [fst snd w_env w_calls with_flush_count fs_manager_ tablet_id_ pb_] in *.
  destruct (ok s4) eqn:Hs4; cbn [negb] in H; injection H as <- <- <-;
    [|congruence].
  cbn [w_env].
  eexists. eexists. eexists.
  rewrite <- Hs3eq, <- Hs4eq. cbn [fst snd]. repeat split; assumption.
Qed.

(** X18. [Create] with a flush, then [Load], on a filesystem where a file
    written can be read back.  If [Create] returned an object, [Load] of
    the same tablet for the same peer returns OK and the same object, but
    for the flush count, which starts again from zero. *)
Theorem Create_then_Load (garbage garbage' : Z) (fs_manager : FsManager)
    (tablet_id peer_uuid : string) (config : RaftConfigPB) (term : Z)
    (draw : Q) (s : Status) (cmeta : ConsensusMetadata) (w w1 : World Env) :
  (forall path pb create sync env,
     ok (fst (WritePBContainerToPath path pb create sync env)) = true ->
     let read :=
       ReadPBContainerFromPath path
         (snd (WritePBContainerToPath path pb create sync env)) in
     ok (fst read) = true /\ snd read = pb) ->
  Create_ garbage fs_manager tablet_id peer_uuid config term
    FLUSH_ON_CREATE draw w = (Ok (s, Some cmeta), w1) ->
  exists w2,
    Load_ garbage' fs_manager tablet_id peer_uuid w1
      = (Ok (Status_OK, Some (with_flush_count 0 cmeta)), w2) /\
    env_of w2 = env_of w1.
Proof.
  intros Hrw Hcreate.
  apply Create_inv in Hcreate. cbv zeta in Hcreate.
  destruct Hcreate as (s1 & c3 & Hflush & Hr).
  destruct (ok s1) eqn:Hs1; cbn [negb] in Hr; [|discriminate].
  injection Hr as -> <-.
  apply Flush_OK_inv in Hflush; [|exact Hs1]. cbv zeta in Hflush.
  destruct Hflush as (env & create & sync & Hwrite & Henv & Hsize & ->).
  cbn [fs_manager_ tablet_id_ pb_ created] in *.
  destruct (Hrw _ _ _ _ _ Hwrite) as [Hread_ok Hread_pb].
  rewrite <- Henv in Hread_ok, Hread_pb.
  rewrite Load_eq.
  - rewrite Hread_ok, Hsize, Hread_pb. cbn [negb].
    eexists. split; reflexivity.
  - intros _ _. rewrite Hread_pb. reflexivity.
Qed.

End DurableFacts.

End Metadata.
End ConsensusMeta.

(** ** A concrete instance of the parameters

    A configuration is the list of its voters, the empty list is the default
    instance, and no configuration without voters passes verification; the
    role is one of three values that fit the role bits.  DCHECKs are on and
    the minimum term is 0. *)

Module Sample.
Import PackedCache ConsensusMeta.

Definition Config : Type := list string.

Definition role_of (peer leader : string) (config : Config) : Role :=
  if existsb (String.eqb peer) config
  then if String.eqb peer leader then 1 else 0
  else 3.

Definition verify (config : Config) : Status :=
  match config with
  | [] => mkStatus kInvalidArgument "no voters"
  | _ => Status_OK
  end.

Lemma role_of_packable (peer leader : string) (config : Config) :
  packable_role (role_of peer leader config).
Proof.
  unfold role_of, packable_role, known_role.
  destruct (existsb _ config); [destruct (String.eqb peer leader)|]; left; lia.
Qed.

Definition fs : FsManager :=
  mkFsManager "/data/consensus-meta"
    (fun tablet_id => "/data/consensus-meta/" ++ tablet_id) false.

Definition new (tablet_id peer_uuid : string) :=
  new_ConsensusMetadata true Config [] 0 fs tablet_id peer_uuid.

Definition run := run_mutators true 0 Config [] role_of.

Definition value (r : Result (ConsensusMetadata Config))
    : ConsensusMetadata Config :=
  match r with
  | Ok this => this
  | Fatal _ =>
      mkConsensusMetadata Config fs "" ""
        (mkConsensusMetadataPB Config None None None) false [] "" 0 0 0 0
  end.

Definition voters : Config := ["p1"; "p2"; "p3"].

(** The object just after construction. *)
Definition fresh : ConsensusMetadata Config :=
  Eval vm_compute in value (new "t1" "p1").

(** The object of a peer that leads at term 5. *)
Definition leading : list (Mutator Config) :=
  [call_set_committed_config Config voters;
   call_set_current_term Config 5;
   call_set_leader_uuid Config "p1"].

Definition leader_at_5 : ConsensusMetadata Config :=
  Eval vm_compute in value (run leading fresh).

(** The object at term 3 that voted for p1. *)
Definition voted_at_3 : ConsensusMetadata Config :=
  Eval vm_compute in
    value (run [call_set_committed_config Config voters;
                call_set_current_term Config 3;
                call_set_voted_for Config "p1";
                call_set_pending_config Config ["p1"; "p2"; "p3"; "p4"];
                call_set_leader_uuid Config "p2"] fresh).

(** The object whose term does not fit the term bits. *)
Definition overflowed : ConsensusMetadata Config :=
  Eval vm_compute in
    value (run [call_set_committed_config Config voters;
                call_set_current_term Config (2 ^ 61 - 1)] fresh).

Example fresh_made : new "t1" "p1" = Ok fresh.
Proof. reflexivity. Qed.

Example leader_at_5_role_and_term :
  GetRoleAndTerm Config leader_at_5 = Ok (1, 5).
Proof. reflexivity. Qed.

Example voted_at_3_state :
  current_term true Config voted_at_3 = Ok 3 /\
  voted_for true Config voted_at_3 = Ok "p1" /\
  has_pending_config Config voted_at_3 = true /\
  leader_uuid Config voted_at_3 = "p2" /\
  GetRoleAndTerm Config voted_at_3 = Ok (0, 3).
Proof. repeat split; reflexivity. Qed.

(** A disk that holds the files written so far, newest first. *)
Definition Disk : Type := list (string * ConsensusMetadataPB Config).

Definition flags : Flags := mkFlags (Qmake 0 1) false false false.

Definition disk_CreateDirIfMissing (dir : string) (d : Disk)
    : Status * bool * Disk := (Status_OK, false, d).
Definition disk_SyncDir (dir : string) (d : Disk) : Status * Disk :=
  (Status_OK, d).
Definition disk_Write (path : string) (pb : ConsensusMetadataPB Config)
    (create : PBCreateMode) (sync : PBSyncMode) (d : Disk) : Status * Disk :=
  (Status_OK, (path, pb) :: d).
Definition disk_GetFileSize (path : string) (d : Disk) : Status * Z :=
  if existsb (fun f => String.eqb path (fst f)) d
  then (Status_OK, 64) else (mkStatus kIOError path, 0).

Definition flush (flush_mode : FlushMode) :=
  Flush Config [] verify (fun dir => "/data") flags Disk
    disk_CreateDirIfMissing disk_SyncDir disk_Write disk_GetFileSize
    flush_mode (Qmake 1 2).

Definition empty_disk : World Config Disk := mkWorld Config Disk [] [].

Example flush_leader_writes :
  snd (flush OVERWRITE leader_at_5 empty_disk) =
  mkWorld Config Disk
    [("/data/consensus-meta/t1", pb_ Config leader_at_5)]
    [CallCreateDirIfMissing Config "/data/consensus-meta";
     CallWritePBContainerToPath Config "/data/consensus-meta/t1"
       (pb_ Config leader_at_5) pb_OVERWRITE pb_NO_SYNC;
     CallGetFileSize Config "/data/consensus-meta/t1"].
Proof. reflexivity. Qed.

(** *** The theorems at these objects *)

Lemma role_and_term_cache_after_mutators_witness :
  (forall peer leader config, packable_role (role_of peer leader config)) /\
  instance true 0 Config [] role_of fresh /\
  run leading fresh = Ok leader_at_5 /\
  role_and_term_cache_ Config leader_at_5 =
    PackRoleAndTerm (active_role Config leader_at_5)
      (cached_term Config leader_at_5) /\
  current_term true Config leader_at_5 = Ok 5 /\
  GetRoleAndTerm Config leader_at_5 = Ok (active_role Config leader_at_5, 5).
Proof.
  assert (Hfresh : instance true 0 Config [] role_of fresh).
  { apply instance_new with (garbage := 0) (fs_manager := fs)
      (tablet_id := "t1") (peer_uuid := "p1"). reflexivity. }
  split; [exact role_of_packable|].
  split; [exact Hfresh|]. split; [reflexivity|].
  destruct (role_and_term_cache_after_mutators true 0 Config [] role_of
              fresh leading leader_at_5 role_of_packable Hfresh eq_refl)
    as (Hcache & Hin & _).
  split; [exact Hcache|]. apply (Hin 5); [reflexivity | lia].
Defined.

(** Against C1 as it is worded: after [set_current_term(2^61 - 1)], a call
    that meets its precondition, the cache word is the packing of the role
    and the term, the slow accessors return role 0 and term [2^61 - 1], and
    [GetRoleAndTerm] does not return that pair: it is fatal. *)
Lemma GetRoleAndTerm_not_slow_accessors :
  instance true 0 Config [] role_of fresh /\
  run [call_set_committed_config Config voters;
       call_set_current_term Config (2 ^ 61 - 1)] fresh = Ok overflowed /\
  role_and_term_cache_ Config overflowed =
    PackRoleAndTerm (active_role Config overflowed) (2 ^ 61 - 1) /\
  active_role Config overflowed = 0 /\
  current_term true Config overflowed = Ok (2 ^ 61 - 1) /\
  GetRoleAndTerm Config overflowed = Fatal "packed term is invalid" /\
  GetRoleAndTerm Config overflowed <> Ok (0, 2 ^ 61 - 1).
Proof.
  split.
  { apply instance_new with (garbage := 0) (fs_manager := fs)
      (tablet_id := "t1") (peer_uuid := "p1"). reflexivity. }
  repeat (split; [reflexivity|]). discriminate.
Qed.

Definition other_at_7 : ConsensusStatePB Config :=
  mkConsensusStatePB Config (Some 7) None (Some ["p1"; "p2"]) None.

Definition other_at_2 : ConsensusStatePB Config :=
  mkConsensusStatePB Config (Some 2) (Some "p3") (Some ["p1"; "p2"]) None.

Lemma MergeCommittedConsensusStatePB_post_witness :
  (true = true -> Merge_dchecks 0 Config other_at_7 voted_at_3 = true) /\
  cstate_current_term Config other_at_7
    > pb_current_term Config (pb_ Config voted_at_3) /\
  exists this',
    MergeCommittedConsensusStatePB true 0 Config [] role_of
      other_at_7 voted_at_3 = Ok this' /\
    has_pending_config Config this' = false /\
    leader_uuid Config this' = "" /\
    CommittedConfig true Config [] this' = Ok ["p1"; "p2"] /\
    current_term true Config this' = Ok 7 /\
    has_voted_for Config this' = false.
Proof.
  split; [reflexivity|]. split; [reflexivity|].
  destruct (MergeCommittedConsensusStatePB_post true 0 Config [] role_of
              other_at_7 voted_at_3 (fun _ => eq_refl))
    as (this' & Hm & Hp & Hl & Hc & Ht).
  exists this'. destruct (Ht eq_refl) as [Ht1 Ht2]. auto 10.
Defined.

Lemma MergeCommittedConsensusStatePB_frame_witness :
  (true = true -> Merge_dchecks 0 Config other_at_2 voted_at_3 = true) /\
  cstate_current_term Config other_at_2
    <= pb_current_term Config (pb_ Config voted_at_3) /\
  exists this',
    MergeCommittedConsensusStatePB true 0 Config [] role_of
      other_at_2 voted_at_3 = Ok this' /\
    current_term_ Config (pb_ Config this') = Some 3 /\
    voted_for_ Config (pb_ Config this') = Some "p1" /\
    leader_uuid Config this' = "" /\
    committed_config_ Config (pb_ Config this') = Some ["p1"; "p2"] /\
    has_pending_config Config this' = false /\
    pending_config_ Config this' = [].
Proof.
  split; [reflexivity|]. split; [vm_compute; discriminate|].
  apply (MergeCommittedConsensusStatePB_frame true 0 Config [] role_of
           other_at_2 voted_at_3).
  - reflexivity.
  - vm_compute. discriminate.
Defined.

Lemma set_current_term_path_witness :
  Forall (fun term => 0 <= term) [1; 5; 5; 9] /\
  (exists this', run_set_current_term true 0 Config [1; 5; 5; 9] fresh = Ok this') /\
  (exists this1 this2,
     run_set_current_term true 0 Config [1] fresh = Ok this1 /\
     set_current_term true 0 Config 5 this1 = Ok this2 /\
     current_term true Config this2 = Ok 5 /\
     0 <= pb_current_term Config (pb_ Config this2) /\
     (pb_current_term Config (pb_ Config this1)
        <= pb_current_term Config (pb_ Config this2) <->
      pb_current_term Config (pb_ Config this1) <= 5)).
Proof.
  assert (Hpre : Forall (fun term => 0 <= term) [1; 5; 5; 9])
    by (repeat constructor; lia).
  split; [exact Hpre|].
  destruct (set_current_term_path true 0 Config [1; 5; 5; 9] fresh Hpre)
    as [Hret Hcalls].
  split; [exact Hret|]. apply (Hcalls [1] 5 [5; 9]). reflexivity.
Defined.

Definition at_5 : ConsensusMetadata Config :=
  Eval vm_compute in value (set_current_term true 0 Config 5 fresh).

Definition at_3 : ConsensusMetadata Config :=
  Eval vm_compute in value (set_current_term true 0 Config 3 at_5).

(** Against C6 as it is worded: two calls that each meet the precondition,
    and the stored term goes from 5 down to 3. *)
Lemma set_current_term_decreases :
  Forall (fun term => 0 <= term) [5; 3] /\
  set_current_term true 0 Config 5 fresh = Ok at_5 /\
  set_current_term true 0 Config 3 at_5 = Ok at_3 /\
  run_set_current_term true 0 Config [5; 3] fresh = Ok at_3 /\
  current_term true Config at_5 = Ok 5 /\
  current_term true Config at_3 = Ok 3 /\
  ~ (pb_current_term Config (pb_ Config at_5)
       <= pb_current_term Config (pb_ Config at_3)).
Proof.
  split; [repeat constructor; lia|].
  repeat (split; [reflexivity|]).
  vm_compute. intros H. apply H. reflexivity.
Qed.

Lemma Flush_invalid_config_witness :
  ok (verify (pb_committed_config Config [] (pb_ Config fresh))) = false /\
  MAYBE_FAULT (FLAGS_fault_crash_before_cmeta_flush flags) (Qmake 1 2) = Ok tt /\
  snd (flush NO_OVERWRITE fresh empty_disk) = empty_disk /\
  exists s,
    fst (flush NO_OVERWRITE fresh empty_disk) =
      Ok (s, with_flush_count Config
               (flush_count_for_tests_ Config fresh + 1) fresh) /\
    ok s = false /\
    code s = kInvalidArgument /\
    String.prefix "Invalid config in ConsensusMetadata, cannot flush to disk"
      (message s) = true.
Proof.
  split; [reflexivity|]. split; [reflexivity|].
  destruct (Flush_invalid_config Config [] verify (fun dir => "/data") flags
              Disk disk_CreateDirIfMissing disk_SyncDir disk_Write
              disk_GetFileSize NO_OVERWRITE (Qmake 1 2) fresh empty_disk
              eq_refl) as [Hworld Hret].
  split; [exact Hworld|]. apply Hret. reflexivity.
Defined.

End Sample.

(** ** RowSetTree (rowset_tree.cc) *)

Module RowSetTree.

(** *** Keys *)

(** Modelled from the spec: [Slice] of util/slice.h, which is not part of
    the sources embedded here: keys are "opaque byte sequences". *)
Definition Slice : Type := string.

(** Modelled from the spec: [Slice::compare], keys "compared
    lexicographically"; negative, zero or positive. *)
Definition Slice_compare (a b : Slice) : Z :=
  match String.compare a b with
  | Lt => -1
  | Eq => 0
  | Gt => 1
  end.

(** *** Interval trees

    The traits a tree is instantiated with: the type of points, the type of
    intervals, the two ends of an interval and the comparison of points. *)
Record IntervalTraits : Type := mkIntervalTraits {
  point_type : Type;
  interval_type : Type;
  get_left : interval_type -> point_type;
  get_right : interval_type -> point_type;
  compare : point_type -> point_type -> Z
}.

Section Intervals.

Variable Traits : IntervalTraits.

Definition point_le (a b : point_type Traits) : bool :=
  compare Traits a b <=? 0.

(** [get_left(I) <= P <= get_right(I)]. *)
Definition contains_point (p : point_type Traits) (i : interval_type Traits)
    : bool :=
  point_le (get_left Traits i) p && point_le p (get_right Traits i).

(** The closed intervals [i] and [q] have a point in common. *)
Definition common_point (i q : interval_type Traits) (p : point_type Traits)
    : Prop :=
  contains_point p i = true /\ contains_point p q = true.

(** The same, decided from the four ends: neither interval is empty and
    each starts before the other ends. *)
Definition intersects (q i : interval_type Traits) : bool :=
  point_le (get_left Traits i) (get_right Traits i)
  && point_le (get_left Traits q) (get_right Traits q)
  && point_le (get_left Traits i) (get_right Traits q)
  && point_le (get_left Traits q) (get_right Traits i).

(** Modelled from the spec: [IntervalTree] of util/interval_tree.h and
    util/interval_tree-inl.h, which are not part of the sources embedded
    here.  "Build from a
    sequence of intervals (static; no insert/delete after construction).
    FindContainingPoint(P, out): append to out every interval I with
    get_left(I) <= P <= get_right(I).  FindIntersectingInterval(Q, out):
    append to out every stored interval that intersects the closed query
    interval [get_left(Q), get_right(Q)]."  The order in which a tree
    appends what it finds is its own.  A tree appends stored intervals
    only.  Which of them it appends is said for a query that is an interval,
    [get_left(Q) <= get_right(Q)]; for a pair of ends the other way round
    nothing is said, and a tree may append any of its intervals. *)
Class IntervalTreeImpl : Type := {
  IntervalTree : Type;
  new_IntervalTree : list (interval_type Traits) -> IntervalTree;
  FindContainingPoint :
    IntervalTree -> point_type Traits ->
    list (interval_type Traits) -> list (interval_type Traits);
  FindIntersectingInterval :
    IntervalTree -> interval_type Traits ->
    list (interval_type Traits) -> list (interval_type Traits);
  FindContainingPoint_appends :
    forall intervals p out,
    exists found,
      FindContainingPoint (new_IntervalTree intervals) p out = (out ++ found)%list /\
      Permutation found (List.filter (contains_point p) intervals);
  FindIntersectingInterval_appends :
    forall intervals q out,
    exists found,
      FindIntersectingInterval (new_IntervalTree intervals) q out
        = (out ++ found)%list /\
      (forall i, In i found -> In i intervals) /\
      (point_le (get_left Traits q) (get_right Traits q) = true ->
       Permutation found (List.filter (intersects q) intervals))
}.

(** The tree that keeps the sequence it was built from and scans it. *)
#[local] Program Instance scanning_tree : IntervalTreeImpl := {|
  IntervalTree := list (interval_type Traits);
  new_IntervalTree intervals := intervals;
  FindContainingPoint tree p out :=
    (out ++ List.filter (contains_point p) tree)%list;
  FindIntersectingInterval tree q out :=
    (out ++ List.filter (intersects q) tree)%list
|}.
Next Obligation. intros intervals p out. eexists. split; reflexivity. Qed.
Next Obligation.
  intros intervals q out. eexists. split; [reflexivity|]. split.
  - intros i Hi. apply filter_In in Hi as [Hi _]. exact Hi.
  - intros _. reflexivity.
Qed.

End Intervals.

Arguments IntervalTree {Traits} _.
Arguments new_IntervalTree {Traits _} _.
Arguments FindContainingPoint {Traits _} _ _ _.
Arguments FindIntersectingInterval {Traits _} _ _ _.

(** *** The heap of tree entries

    The addresses of the live [RowSetWithBounds] objects. *)
Definition Heap : Type := gset nat.

(** Where a [RowSetWithBounds] lives. *)
Inductive Loc : Type :=
| on_heap (a : nat)
| on_stack.

Definition new_address (h : Heap) : nat * Heap :=
  let a := fresh h in (a, {[a]} ∪ h).

Definition delete (l : Loc) (h : Heap) : Heap :=
  match l with
  | on_heap a => h ∖ {[a]}
  | on_stack => h
  end.

Section Tree.

Variable DCHECK_IS_ON : bool.

(** Modelled from the spec: the class [RowSet] of tablet/rowset.h, which is
    not part of the sources embedded here.  A value of [RowSet] is a rowset
    object, and what a
    pointer to it is compared by; "each rowset can report bounds via
    GetBounds() -> (min_key, max_key) or signal Unsupported".  The two keys
    mean nothing unless the status is OK. *)
Variable RowSet : Type.
Variable GetBounds : RowSet -> Status * (Slice * Slice).

(** Entry for use in the interval tree. *)
Record RowSetWithBounds : Type := mkRowSetWithBounds {
  rowset : RowSet;
  min_key : string;
  max_key : string
}.

(** A [RowSetWithBounds *], with what it points to. *)
Record RowSetWithBounds_ptr : Type := mkPtr {
  loc : Loc;
  pointee : RowSetWithBounds
}.

(** Traits struct for IntervalTree. *)
Definition RowSetIntervalTraits : IntervalTraits :=
  mkIntervalTraits Slice RowSetWithBounds_ptr
    (fun rs => min_key (pointee rs))
    (fun rs => max_key (pointee rs))
    Slice_compare.

Context {tree_impl : IntervalTreeImpl RowSetIntervalTraits}.

Record RowSetTree : Type := mkRowSetTree {
  initted_ : bool;
  entries_ : list RowSetWithBounds_ptr;
  unbounded_rowsets_ : list RowSet;
  tree_ : option (IntervalTree tree_impl);
  all_rowsets_ : list RowSet
}.

Definition new_RowSetTree : RowSetTree := mkRowSetTree false [] [] None [].

(** [STLDeleteElements]: delete every element of the vector. *)
Definition STLDeleteElements (entries : list RowSetWithBounds_ptr) (h : Heap)
    : Heap :=
  foldl (fun h rs => delete (loc rs) h) h entries.

(** How the loop of [Reset] ends: it runs to its end, with the two local
    vectors filled, or the function returns from inside it. *)
Inductive LoopExit : Type :=
| Completed (entries : list RowSetWithBounds_ptr) (unbounded : list RowSet)
| Returned (s : Status) (entries : list RowSetWithBounds_ptr).

(** The loop over the rowsets.  [rsit] is allocated at the top of each
    round; its [gscoped_ptr] deletes it when the round ends by [continue] or
    [return], and gives it up to [entries] otherwise. *)
Fixpoint Reset_loop (rowsets : list RowSet)
    (entries : list RowSetWithBounds_ptr) (unbounded : list RowSet) (h : Heap)
    : LoopExit * Heap :=
  match rowsets with
  | [] => (Completed entries unbounded, h)
  | rs :: rowsets =>
      let '(rsit, h) := new_address h in
      let '(s, (min_key, max_key)) := GetBounds rs in
      if IsNotSupported s then
        Reset_loop rowsets entries (unbounded ++ [rs]) (delete (on_heap rsit) h)
      else if negb (ok s) then
        (Returned s entries, delete (on_heap rsit) h)
      else
        Reset_loop rowsets
          (entries ++ [mkPtr (on_heap rsit) (mkRowSetWithBounds rs min_key max_key)])
          unbounded h
  end.

(** [Reset].  The [ElementDeleter] on the local [entries] runs when the
    function returns: on what the loop had collected when the return is
    from inside the loop, on what [entries_] held before the swap
    otherwise. *)
Definition Reset (rowsets : list RowSet) (this : RowSetTree) (h : Heap)
    : Result (Status * RowSetTree * Heap) :=
  CHECK (negb (initted_ this)) "!initted_";;
  match Reset_loop rowsets [] [] h with
  | (Returned s entries, h) =>
      mret (s, this, STLDeleteElements entries h)
  | (Completed entries unbounded, h) =>
      mret (Status_OK,
            mkRowSetTree true entries unbounded
              (Some (new_IntervalTree entries)) rowsets,
            STLDeleteElements (entries_ this) h)
  end.

Definition rowset_of (rs : RowSetWithBounds_ptr) : RowSet := rowset (pointee rs).

(** [*tree_]. *)
Definition the_tree (this : RowSetTree) : Result (IntervalTree tree_impl) :=
  match tree_ this with
  | Some tree => Ok tree
  | None => Fatal "tree_ is null"
  end.

(** The two queries append to [rowsets].  The [rowset] field of the local
    [query] has no initializer: it holds [garbage]. *)
Definition FindRowSetsIntersectingInterval (lower_bound upper_bound : Slice)
    (garbage : RowSet) (rowsets : list RowSet) (this : RowSetTree)
    : Result (list RowSet) :=
  DCHECK DCHECK_IS_ON (initted_ this) "initted_";;
  let rowsets := (rowsets ++ unbounded_rowsets_ this)%list in
  let query := mkPtr on_stack (mkRowSetWithBounds garbage lower_bound upper_bound) in
  tree ← the_tree this;
  let from_tree := FindIntersectingInterval tree query [] in
  mret (rowsets ++ map rowset_of from_tree)%list.

Definition FindRowSetsWithKeyInRange (encoded_key : Slice)
    (rowsets : list RowSet) (this : RowSetTree) : Result (list RowSet) :=
  DCHECK DCHECK_IS_ON (initted_ this) "initted_";;
  let rowsets := (rowsets ++ unbounded_rowsets_ this)%list in
  tree ← the_tree this;
  let from_tree := FindContainingPoint tree encoded_key [] in
  mret (rowsets ++ map rowset_of from_tree)%list.

(** [~RowSetTree]. *)
Definition delete_RowSetTree (this : RowSetTree) (h : Heap) : Heap :=
  STLDeleteElements (entries_ this) h.

(** *** What a rowset reports *)

Definition bounds_status (rs : RowSet) : Status := fst (GetBounds rs).
Definition bounds_min (rs : RowSet) : Slice := fst (snd (GetBounds rs)).
Definition bounds_max (rs : RowSet) : Slice := snd (snd (GetBounds rs)).

Definition is_unbounded (rs : RowSet) : bool := IsNotSupported (bounds_status rs).
Definition is_bounded (rs : RowSet) : bool :=
  negb (IsNotSupported (bounds_status rs)) && ok (bounds_status rs).
Definition fails_bounds (rs : RowSet) : bool :=
  negb (IsNotSupported (bounds_status rs)) && negb (ok (bounds_status rs)).

Definition key_le (a b : Slice) : bool := Slice_compare a b <=? 0.

(** [min_key <= key <= max_key] for the bounds of [rs]. *)
Definition bounds_contain (key : Slice) (rs : RowSet) : bool :=
  key_le (bounds_min rs) key && key_le key (bounds_max rs).


Definition bounds_meetb (lower upper : Slice) (rs : RowSet) : bool :=
  key_le (bounds_min rs) (bounds_max rs)
  && key_le lower upper
  && key_le (bounds_min rs) upper
  && key_le lower (bounds_max rs).

(** The heap addresses a vector of entries holds. *)
Definition addresses (entries : list RowSetWithBounds_ptr) : Heap :=
  foldr (fun rs acc =>
           match loc rs with
           | on_heap a => {[a]} ∪ acc
           | on_stack => acc
           end) ∅ entries.

(** The entry [Reset] makes for a rowset that reports its bounds. *)
Definition entry_of (rs : RowSet) : RowSetWithBounds :=
  mkRowSetWithBounds rs (bounds_min rs) (bounds_max rs).

(** *** The loop of [Reset] *)

Lemma addresses_app (entries1 entries2 : list RowSetWithBounds_ptr) :
  addresses (entries1 ++ entries2) = addresses entries1 ∪ addresses entries2.
Proof.
  induction entries1 as [|rs entries1 IH]; simpl.
  - set_solver.
  - rewrite IH. destruct (loc rs); set_solver.
Qed.

Lemma STLDeleteElements_eq (entries : list RowSetWithBounds_ptr) :
  forall h, STLDeleteElements entries h = h ∖ addresses entries.
Proof.
  unfold STLDeleteElements.
  induction entries as [|rs entries IH]; intros h; simpl.
  - set_solver.
  - rewrite IH. destruct (loc rs); simpl; set_solver.
Qed.

Lemma new_address_fresh (h : Heap) :
  (fst (new_address h) ∉ h) /\
  snd (new_address h) = {[fst (new_address h)]} ∪ h.
Proof. unfold new_address. simpl. split; [apply is_fresh | reflexivity]. Qed.

Lemma Reset_loop_spec (rowsets : list RowSet) :
  forall entries unbounded (h h0 : Heap),
    h = h0 ∪ addresses entries ->
    addresses entries ## h0 ->
    match Reset_loop rowsets entries unbounded h with
    | (Completed entries' unbounded', h') =>
        h' = h0 ∪ addresses entries' /\ addresses entries' ## h0 /\
        List.find fails_bounds rowsets = None /\
        unbounded' = (unbounded ++ List.filter is_unbounded rowsets)%list /\
        map pointee entries' =
          (map pointee entries ++ map entry_of (List.filter is_bounded rowsets))%list
    | (Returned s entries', h') =>
        h' = h0 ∪ addresses entries' /\ addresses entries' ## h0 /\
        exists rs, List.find fails_bounds rowsets = Some rs /\ s = bounds_status rs
    end.
Proof.
  induction rowsets as [|rs rowsets IH]; intros entries unbounded h h0 Hh Hdisj.
  - simpl. rewrite !app_nil_r. auto.
  - cbn [Reset_loop].
    destruct (new_address_fresh h) as [Hfresh Hnew].
    destruct (new_address h) as [rsit h1] eqn:Hna. simpl in Hfresh, Hnew.
    unfold fails_bounds, is_unbounded, is_bounded, entry_of,
      bounds_status, bounds_min, bounds_max in *.
    cbn [List.find List.filter].
    destruct (GetBounds rs) as [s [min_key max_key]] eqn:Hb. cbn [fst snd].
    destruct (IsNotSupported s) eqn:Hns; cbn [negb andb].
    + specialize (IH entries (unbounded ++ [rs])%list
                     (delete (on_heap rsit) h1) h0).
      assert (Hback : delete (on_heap rsit) h1 = h0 ∪ addresses entries).
      { simpl. subst h1 h. set_solver. }
      specialize (IH Hback Hdisj).
      destruct (Reset_loop rowsets entries (unbounded ++ [rs])
                  (delete (on_heap rsit) h1)) as [[entries' unbounded'|s' entries'] h'].
      * destruct IH as (H1 & H2 & H3 & H4 & H5).
        rewrite <- app_assoc in H4. auto.
      * exact IH.
    + destruct (ok s) eqn:Hok; cbn [negb].
      * set (entry := mkPtr (on_heap rsit) (mkRowSetWithBounds rs min_key max_key)).
        specialize (IH (entries ++ [entry])%list unbounded h1 h0).
        assert (Haddr : addresses (entries ++ [entry]) = addresses entries ∪ {[rsit]}).
        { rewrite addresses_app. simpl. set_solver. }
        assert (H1 : h1 = h0 ∪ addresses (entries ++ [entry])).
        { rewrite Haddr. subst h1 h. set_solver. }
        assert (H2 : addresses (entries ++ [entry]) ## h0).
        { rewrite Haddr. subst h. set_solver. }
        specialize (IH H1 H2).
        destruct (Reset_loop rowsets (entries ++ [entry]) unbounded h1)
          as [[entries' unbounded'|s' entries'] h'].
        -- destruct IH as (H3 & H4 & H5 & H6 & H7).
           rewrite map_app, <- app_assoc in H7.
           repeat (split; [assumption|]).
           rewrite H7. cbn [map app pointee]. unfold entry. rewrite ?Hb.
           reflexivity.
        -- exact IH.
      * split; [|split; [exact Hdisj|]].
        -- simpl. subst h1 h. set_solver.
        -- exists rs. rewrite Hb. auto.
Qed.

(** *** The order of keys *)

Lemma ascii_compare_refl (c : ascii) : Ascii.compare c c = Eq.
Proof. unfold Ascii.compare. apply N.compare_refl. Qed.

Lemma ascii_compare_Lt_trans (a b c : ascii) :
  Ascii.compare a b = Lt -> Ascii.compare b c = Lt -> Ascii.compare a c = Lt.
Proof.
  unfold Ascii.compare. rewrite !N.compare_lt_iff. apply N.lt_trans.
Qed.

Lemma string_compare_refl (a : string) : String.compare a a = Eq.
Proof.
  induction a as [|c a IH]; simpl; [reflexivity|].
  rewrite ascii_compare_refl. exact IH.
Qed.

Lemma string_compare_le_trans (a : string) :
  forall b c,
    String.compare a b <> Gt -> String.compare b c <> Gt ->
    String.compare a c <> Gt.
Proof.
  induction a as [|x a IH]; intros [|y b] [|z c]; simpl; try congruence.
  destruct (Ascii.compare x y) eqn:Hxy; [| |congruence];
    destruct (Ascii.compare y z) eqn:Hyz; try congruence.
  - apply Ascii.compare_eq_iff in Hxy, Hyz. subst.
    rewrite ascii_compare_refl. apply IH.
  - apply Ascii.compare_eq_iff in Hxy. subst. rewrite Hyz. congruence.
  - apply Ascii.compare_eq_iff in Hyz. subst. rewrite Hxy. congruence.
  - rewrite (ascii_compare_Lt_trans x y z Hxy Hyz). congruence.
Qed.

Lemma key_le_iff (a b : Slice) : key_le a b = true <-> String.compare a b <> Gt.
Proof.
  unfold key_le, Slice_compare.
  destruct (String.compare a b); cbv; split; intros H; congruence.
Qed.

Lemma key_le_refl (a : Slice) : key_le a a = true.
Proof. apply key_le_iff. rewrite string_compare_refl. congruence. Qed.

Lemma key_le_trans (a b c : Slice) :
  key_le a b = true -> key_le b c = true -> key_le a c = true.
Proof. rewrite !key_le_iff. apply string_compare_le_trans. Qed.

Lemma key_le_total (a b : Slice) : key_le a b = true \/ key_le b a = true.
Proof.
  rewrite !key_le_iff, (String.compare_antisym b a).
  destruct (String.compare a b); simpl; [left | left | right]; congruence.
Qed.


(** For the traits of the rowset tree, [intersects] says that the two
    closed intervals have a point in common. *)
Lemma point_le_key_le (a b : Slice) :
  point_le RowSetIntervalTraits a b = key_le a b.
Proof. reflexivity. Qed.

Lemma intersects_common_point (q i : RowSetWithBounds_ptr) :
  intersects RowSetIntervalTraits q i = true <->
  exists p, common_point RowSetIntervalTraits i q p.
Proof.
  unfold intersects, common_point, contains_point.
  change (point_le RowSetIntervalTraits) with key_le.
  cbn [get_left get_right RowSetIntervalTraits].
  set (imin := min_key (pointee i)). set (imax := max_key (pointee i)).
  set (qmin := min_key (pointee q)). set (qmax := max_key (pointee q)).
  rewrite !andb_true_iff. split.
  - intros [[[Hi Hq] Hiq] Hqi].
    destruct (key_le_total imin qmin) as [Hle|Hle].
    + exists qmin. rewrite Hle, Hqi, key_le_refl, Hq. auto.
    + exists imin. rewrite key_le_refl, Hi, Hle, Hiq. auto.
  - intros (p & Hpi & Hpq).
    apply andb_true_iff in Hpi as [Hi1 Hi2].
    apply andb_true_iff in Hpq as [Hq1 Hq2].
    repeat split; eapply key_le_trans; eauto.
Qed.

(** *** Lists *)

Lemma filter_map_commute {A B : Type} (g : A -> B) (f : B -> bool) (l : list A) :
  map g (List.filter (fun x => f (g x)) l) = List.filter f (map g l).
Proof.
  induction l as [|x l IH]; simpl; [reflexivity|].
  destruct (f (g x)); simpl; rewrite IH; reflexivity.
Qed.

Lemma filter_filter_andb {A : Type} (p q : A -> bool) (l : list A) :
  List.filter q (List.filter p l) = List.filter (fun x => p x && q x) l.
Proof.
  induction l as [|x l IH]; simpl; [reflexivity|].
  destruct (p x); simpl; [destruct (q x)|]; rewrite IH; reflexivity.
Qed.


Lemma map_rowset_entry_of (l : list RowSet) :
  map rowset (map entry_of l) = l.
Proof.
  induction l as [|rs l IH]; simpl; [reflexivity|]. rewrite IH. reflexivity.
Qed.

(** What [Reset] leaves in the object when it succeeds. *)
Lemma Reset_Ok_inv (rowsets : list RowSet) (this this' : RowSetTree)
    (h h' : Heap) (s : Status) :
  Reset rowsets this h = Ok (s, this', h') ->
  ok s = true ->
  s = Status_OK /\
  List.find fails_bounds rowsets = None /\
  exists entries,
    this' = mkRowSetTree true entries (List.filter is_unbounded rowsets)
              (Some (new_IntervalTree entries)) rowsets /\
    map pointee entries = map entry_of (List.filter is_bounded rowsets).
Proof.
  unfold Reset. intros H Hok.
  apply bind_Ok_inv in H as (_ & _ & H).
  pose proof (Reset_loop_spec rowsets [] [] h h) as Hloop.
  destruct (Reset_loop rowsets [] [] h) as [[entries unbounded|s' entries] h1].
  - destruct Hloop as (_ & _ & Hfind & Hunb & Hent); [set_solver | set_solver |].
    injection H as <- <- <-. split; [reflexivity|]. split; [exact Hfind|].
    exists entries. subst unbounded. auto.
  - destruct Hloop as (_ & _ & rs & Hfind & Hs); [set_solver | set_solver |].
    injection H as <- <- <-. subst s'.
    apply find_some in Hfind as [_ Hfail].
    unfold fails_bounds in Hfail. rewrite Hok, andb_false_r in Hfail.
    discriminate.
Qed.



(** C8.  [Reset] on a tree not yet initialised.  If the bounds of some
    rowset fail with an error other than NotSupported, [Reset] returns the
    error of the first such rowset, the tree is as it was, and the heap is
    as it was: every entry allocated on the way has been deleted.
    Otherwise [Reset] returns OK, however many rowsets answer NotSupported:
    those are, in order, [unbounded_rowsets_], and the others are the
    entries. *)
Theorem Reset_bounds_errors (rowsets : list RowSet) (this : RowSetTree)
    (h : Heap) :
  initted_ this = false ->
  match List.find fails_bounds rowsets with
  | Some rs =>
      Reset rowsets this h = Ok (bounds_status rs, this, h) /\
      ok (bounds_status rs) = false /\
      IsNotSupported (bounds_status rs) = false
  | None =>
      exists this' h',
        Reset rowsets this h = Ok (Status_OK, this', h') /\
        initted_ this' = true /\
        unbounded_rowsets_ this' = List.filter is_unbounded rowsets /\
        map rowset_of (entries_ this') = List.filter is_bounded rowsets /\
        all_rowsets_ this' = rowsets
  end.
Proof.
  intros Hinit. unfold Reset. rewrite Hinit. cbn [negb CHECK mbind Result_bind].
  pose proof (Reset_loop_spec rowsets [] [] h h) as Hloop.
  destruct (Reset_loop rowsets [] [] h) as [[entries unbounded|s entries] h1].
  - destruct Hloop as (_ & _ & Hfind & Hunb & Hent); [set_solver | set_solver |].
    rewrite Hfind. eexists. eexists. split; [reflexivity|].
    cbn [initted_ unbounded_rowsets_ entries_ all_rowsets_].
    repeat split; [exact Hunb|].
    unfold rowset_of. rewrite <- (map_map pointee rowset), Hent.
    apply map_rowset_entry_of.
  - destruct Hloop as (Hh1 & Hdisj & rs & Hfind & Hs);
      [set_solver | set_solver |].
    rewrite Hfind. subst s.
    apply find_some in Hfind as [_ Hfail]. unfold fails_bounds in Hfail.
    apply andb_true_iff in Hfail as [Hns Hok].
    apply negb_true_iff in Hns, Hok.
    split; [|auto].
    cbn [mret Result_ret]. do 3 f_equal.
    rewrite STLDeleteElements_eq. subst h1. set_solver.
Qed.

(** *** More on [Reset] and the queries *)

(** X19. A tree is reset once: after a [Reset] that returned OK, every
    further [Reset], whatever the rowsets, aborts on its CHECK; a [Reset]
    that returned an error has left the tree as it was, so it can be reset
    again. *)
Theorem Reset_once (rowsets : list RowSet) (this this' : RowSetTree)
    (h h' : Heap) (s : Status) :
  Reset rowsets this h = Ok (s, this', h') ->
  if ok s
  then forall rowsets2 h2, Reset rowsets2 this' h2 = Fatal "!initted_"
  else this' = this /\ initted_ this' = false.
Proof.
  intros H. destruct (ok s) eqn:Hok.
  - apply Reset_Ok_inv in H as (_ & _ & entries & -> & _); [|exact Hok].
    intros rowsets2 h2. reflexivity.
  - unfold Reset in H.
    destruct (initted_ this) eqn:Hinit; [discriminate|].
    cbn [negb CHECK mbind Result_bind] in H.
    destruct (Reset_loop rowsets [] [] h) as [[entries unbounded|s' entries] h1].
    + injection H as <- _ _. discriminate.
    + injection H as _ <- _. split; [reflexivity | exact Hinit].
Qed.

(** X20. The entries of a tree are its own.  After a [Reset] of an empty
    tree that returned OK, the live addresses are those that were live
    before and those of the new entries, none of which was live before; and
    the destructor gives back exactly these: the heap is again what it was
    before the [Reset]. *)
Theorem Reset_then_delete (rowsets : list RowSet) (this this' : RowSetTree)
    (h h' : Heap) :
  entries_ this = [] ->
  Reset rowsets this h = Ok (Status_OK, this', h') ->
  h' = h ∪ addresses (entries_ this') /\
  addresses (entries_ this') ## h /\
  Forall (fun rs => exists a, loc rs = on_heap a) (entries_ this') /\
  delete_RowSetTree this' h' = h.
Proof.
  intros Hempty H. unfold Reset in H.
  apply bind_Ok_inv in H as (_ & _ & H).
  pose proof (Reset_loop_spec rowsets [] [] h h) as Hloop.
  assert (Hlocs : forall rowsets entries unbounded h0,
             Forall (fun rs => exists a, loc rs = on_heap a) entries ->
             match Reset_loop rowsets entries unbounded h0 with
             | (Completed entries' _, _) =>
                 Forall (fun rs => exists a, loc rs = on_heap a) entries'
             | _ => True
             end).
  { clear. induction rowsets as [|rs rowsets IH]; intros entries unbounded h0 Hall.
    - exact Hall.
    - cbn [Reset_loop]. destruct (new_address h0) as [rsit h1].
      destruct (GetBounds rs) as [s [min_key max_key]].
      destruct (IsNotSupported s); [apply IH; exact Hall|].
      destruct (negb (ok s)); [exact I|].
      apply IH. apply Forall_app. split; [exact Hall|].
      constructor; [eexists; reflexivity | constructor]. }
  specialize (Hlocs rowsets [] [] h ltac:(constructor)).
  destruct (Reset_loop rowsets [] [] h) as [[entries unbounded|s' entries] h1].
  - destruct Hloop as (Hh1 & Hdisj & _); [set_solver | set_solver |].
    injection H as <- <-. rewrite Hempty. cbn [entries_].
    unfold delete_RowSetTree. cbn [entries_].
    rewrite !STLDeleteElements_eq. cbn [addresses foldr].
    split; [set_solver|]. split; [exact Hdisj|]. split; [exact Hlocs|].
    set_solver.
  - destruct Hloop as (_ & _ & rs & Hfind & ->); [set_solver | set_solver |].
    injection H as Hs _ _. apply find_some in Hfind as [_ Hfail].
    unfold fails_bounds in Hfail. rewrite Hs in Hfail. discriminate.
Qed.

Lemma found_bounded (rowsets : list RowSet)
    (entries found : list RowSetWithBounds_ptr)
    (inside : RowSetWithBounds -> bool) (reported : RowSet -> bool) :
  map pointee entries = map entry_of (List.filter is_bounded rowsets) ->
  (forall rs, inside (entry_of rs) = reported rs) ->
  Permutation found (List.filter (fun rs => inside (pointee rs)) entries) ->
  Permutation (map rowset_of found)
    (List.filter (fun rs => is_bounded rs && reported rs) rowsets).
Proof.
  intros Hent Hin Hperm.
  eapply Permutation_trans; [apply Permutation_map; exact Hperm|].
  unfold rowset_of. rewrite <- (map_map pointee rowset).
  rewrite (filter_map_commute pointee inside), Hent.
  rewrite <- (filter_map_commute entry_of inside).
  rewrite map_rowset_entry_of, filter_filter_andb.
  erewrite filter_ext; [reflexivity|].
  intros rs. simpl. rewrite Hin. reflexivity.
Qed.

(** Entries of the tree stand for rowsets that reported their bounds. *)
Lemma stored_bounded (rowsets : list RowSet)
    (entries found : list RowSetWithBounds_ptr) :
  map pointee entries = map entry_of (List.filter is_bounded rowsets) ->
  (forall i, In i found -> In i entries) ->
  Forall (fun rs => is_bounded rs = true) (map rowset_of found).
Proof.
  intros Hent Hstored. apply List.Forall_forall. intros rs Hin.
  apply in_map_iff in Hin as (i & <- & Hi).
  apply Hstored in Hi. apply (in_map pointee) in Hi.
  rewrite Hent in Hi. apply in_map_iff in Hi as (rs & Hrs & Hin).
  apply filter_In in Hin as [_ Hb].
  unfold rowset_of. rewrite <- Hrs. exact Hb.
Qed.

(** What the two queries return on a tree that [Reset] has built: what was
    there, the unbounded rowsets in the order of [Reset], and then what the
    interval tree found. *)
Lemma FindRowSetsWithKeyInRange_built (S : list RowSet)
    (this this' : RowSetTree) (h h' : Heap) (key : Slice) (out : list RowSet) :
  Reset S this h = Ok (Status_OK, this', h') ->
  exists rest,
    FindRowSetsWithKeyInRange key out this'
      = Ok (out ++ List.filter is_unbounded S ++ rest)%list /\
    Permutation rest
      (List.filter (fun rs => is_bounded rs && bounds_contain key rs) S).
Proof.
  intros Hreset.
  apply Reset_Ok_inv in Hreset as (_ & _ & entries & -> & Hent); [|reflexivity].
  unfold FindRowSetsWithKeyInRange.
  cbn [initted_ tree_ unbounded_rowsets_ the_tree].
  rewrite DCHECK_Ok_true.
  destruct (FindContainingPoint_appends RowSetIntervalTraits entries key [])
    as (found & Heq & Hperm).
  cbn [mbind mret Result_bind Result_ret]. rewrite Heq. cbn [app].
  exists (map rowset_of found). split; [rewrite app_assoc; reflexivity|].
  apply found_bounded with (entries := entries)
    (inside := fun e => key_le (min_key e) key && key_le key (max_key e));
    auto.
Qed.

Lemma FindRowSetsIntersectingInterval_built (S : list RowSet)
    (this this' : RowSetTree) (h h' : Heap) (lower upper : Slice)
    (garbage : RowSet) (out : list RowSet) :
  Reset S this h = Ok (Status_OK, this', h') ->
  exists rest,
    FindRowSetsIntersectingInterval lower upper garbage out this'
      = Ok (out ++ List.filter is_unbounded S ++ rest)%list /\
    Forall (fun rs => is_bounded rs = true) rest /\
    (key_le lower upper = true ->
     Permutation rest
       (List.filter (fun rs => is_bounded rs && bounds_meetb lower upper rs) S)).
Proof.
  intros Hreset.
  apply Reset_Ok_inv in Hreset as (_ & _ & entries & -> & Hent); [|reflexivity].
  unfold FindRowSetsIntersectingInterval.
  cbn [initted_ tree_ unbounded_rowsets_ the_tree].
  rewrite DCHECK_Ok_true.
  set (query := mkPtr on_stack (mkRowSetWithBounds garbage lower upper)).
  destruct (FindIntersectingInterval_appends RowSetIntervalTraits entries query [])
    as (found & Heq & Hstored & Hperm).
  cbn [mbind mret Result_bind Result_ret]. rewrite Heq. cbn [app].
  exists (map rowset_of found). split; [rewrite app_assoc; reflexivity|].
  split; [exact (stored_bounded S entries found Hent Hstored)|].
  intros Hq. specialize (Hperm Hq).
  apply found_bounded with (entries := entries)
    (inside := fun e =>
       key_le (min_key e) (max_key e) && key_le lower upper
       && key_le (min_key e) upper && key_le lower (max_key e));
    auto.
Qed.

Lemma bounds_meetb_point (key : Slice) (rs : RowSet) :
  bounds_meetb key key rs = bounds_contain key rs.
Proof.
  unfold bounds_meetb, bounds_contain. rewrite key_le_refl.
  destruct (key_le (bounds_min rs) key) eqn:Hlo;
    destruct (key_le key (bounds_max rs)) eqn:Hhi;
    rewrite ?andb_false_r, ?andb_true_r; try reflexivity.
  apply (key_le_trans _ _ _ Hlo Hhi).
Qed.

(** X21. A point is the interval from itself to itself: on a tree that
    [Reset] has built, [FindRowSetsWithKeyInRange(key)] and
    [FindRowSetsIntersectingInterval(key, key)] append the same rowsets, up
    to the order of those that come from the interval tree. *)
Theorem point_query_is_interval_query (S : list RowSet)
    (this this' : RowSetTree) (h h' : Heap) (key : Slice)
    (garbage : RowSet) (out : list RowSet) :
  Reset S this h = Ok (Status_OK, this', h') ->
  exists found1 found2,
    FindRowSetsWithKeyInRange key out this' = Ok (out ++ found1)%list /\
    FindRowSetsIntersectingInterval key key garbage out this'
      = Ok (out ++ found2)%list /\
    Permutation found1 found2.
Proof.
  intros Hreset.
  destruct (FindRowSetsWithKeyInRange_built S this this' h h' key out Hreset)
    as (rest1 & H1 & P1).
  destruct (FindRowSetsIntersectingInterval_built S this this' h h' key key
              garbage out Hreset) as (rest2 & H2 & _ & P2).
  specialize (P2 (key_le_refl key)).
  eexists. eexists. split; [exact H1|]. split; [exact H2|].
  apply Permutation_app_head.
  eapply Permutation_trans; [exact P1|].
  eapply Permutation_trans; [|apply Permutation_sym; exact P2].
  erewrite filter_ext; [reflexivity|].
  intros rs. simpl. rewrite bounds_meetb_point. reflexivity.
Qed.

(** X22. A wider interval finds no less: for an interval [lower, upper],
    [lower <= upper], and a wider one, [lower' <= lower] and
    [upper <= upper'], every rowset the query of [lower, upper] appends is
    appended by the query of [lower', upper'] too. *)
Theorem interval_query_monotone (S : list RowSet)
    (this this' : RowSetTree) (h h' : Heap) (lower upper lower' upper' : Slice)
    (garbage garbage' : RowSet) (found found' : list RowSet) :
  Reset S this h = Ok (Status_OK, this', h') ->
  key_le lower upper = true ->
  key_le lower' lower = true ->
  key_le upper upper' = true ->
  FindRowSetsIntersectingInterval lower upper garbage [] this' = Ok found ->
  FindRowSetsIntersectingInterval lower' upper' garbage' [] this' = Ok found' ->
  forall rs, In rs found -> In rs found'.
Proof.
  intros Hreset Hq Hlo Hup Hfound Hfound' rs Hin.
  destruct (FindRowSetsIntersectingInterval_built S this this' h h' lower upper
              garbage [] Hreset) as (rest & H1 & _ & P1).
  destruct (FindRowSetsIntersectingInterval_built S this this' h h' lower' upper'
              garbage' [] Hreset) as (rest' & H2 & _ & P2).
  specialize (P1 Hq).
  specialize (P2 (key_le_trans _ _ _ Hlo (key_le_trans _ _ _ Hq Hup))).
  rewrite H1 in Hfound. injection Hfound as <-.
  rewrite H2 in Hfound'. injection Hfound' as <-.
  cbn [app] in *. apply in_app_iff in Hin. apply in_app_iff.
  destruct Hin as [Hin | Hin]; [left; exact Hin | right].
  eapply Permutation_in in Hin; [|exact P1].
  eapply Permutation_in; [apply Permutation_sym; exact P2|].
  apply filter_In in Hin as [HinS Hrs]. apply filter_In. split; [exact HinS|].
  apply andb_true_iff in Hrs as [Hb Hm]. rewrite Hb. cbn [andb].
  unfold bounds_meetb in *.
  apply andb_true_iff in Hm as [Hm H4]. apply andb_true_iff in Hm as [Hm H3].
  apply andb_true_iff in Hm as [H1' H2'].
  rewrite H1'. cbn [andb].
  rewrite (key_le_trans _ _ _ Hlo (key_le_trans _ _ _ H2' Hup)).
  rewrite (key_le_trans _ _ _ H3 Hup).
  rewrite (key_le_trans _ _ _ Hlo H4). reflexivity.
Qed.

(** X23. The queries only append, and the rowsets without bounds come
    first: what a query returns is what was in the vector, then every
    unbounded rowset, in the order and as many times as [Reset] was given
    it, then rowsets with bounds only. *)
Theorem unbounded_rowsets_first (S : list RowSet)
    (this this' : RowSetTree) (h h' : Heap) (key lower upper : Slice)
    (garbage : RowSet) (out : list RowSet) :
  Reset S this h = Ok (Status_OK, this', h') ->
  (exists rest,
     FindRowSetsWithKeyInRange key out this'
       = Ok (out ++ List.filter is_unbounded S ++ rest)%list /\
     Forall (fun rs => is_bounded rs = true) rest) /\
  (exists rest,
     FindRowSetsIntersectingInterval lower upper garbage out this'
       = Ok (out ++ List.filter is_unbounded S ++ rest)%list /\
     Forall (fun rs => is_bounded rs = true) rest).
Proof.
  intros Hreset. split.
  - destruct (FindRowSetsWithKeyInRange_built S this this' h h' key out Hreset)
      as (rest & H1 & P1).
    exists rest. split; [exact H1|].
    apply List.Forall_forall. intros rs Hin.
    eapply Permutation_in in Hin; [|exact P1].
    apply filter_In in Hin as [_ Hrs].
    apply andb_true_iff in Hrs as [Hb _]. exact Hb.
  - destruct (FindRowSetsIntersectingInterval_built S this this' h h'
                lower upper garbage out Hreset) as (rest & H1 & Hb & _).
    exists rest. split; [exact H1 | exact Hb].
Qed.

End Tree.

End RowSetTree.

(** ** Rowsets to run the tree on

    The rowsets and keys of the specification's scenarios, with one more
    rowset whose bounds cannot be read; the tree is the scanning one. *)

Module SampleRowSets.
Import RowSetTree.

Definition bounds_of (rs : string) : Status * (Slice * Slice) :=
  if String.eqb rs "R1" then (Status_OK, ("a", "c"))
  else if String.eqb rs "R2" then (Status_OK, ("b", "d"))
  else if String.eqb rs "R3" then (Status_OK, ("e", "g"))
  else if String.eqb rs "U" then (mkStatus kNotSupported "", ("", ""))
  else (mkStatus kIOError "cannot read bounds", ("", "")).

Definition Tree : Type :=
  RowSetTree string (tree_impl := scanning_tree (RowSetIntervalTraits string)).

Definition reset (rowsets : list string) (this : Tree) (h : Heap) :=
  Reset string bounds_of rowsets this h.

Definition empty_tree : Tree := new_RowSetTree string.

Definition built : Tree :=
  Eval vm_compute in
    match reset ["R1"; "R2"; "U"; "R3"] empty_tree ∅ with
    | Ok (_, this, _) => this
    | Fatal _ => empty_tree
    end.

Definition built_heap : Heap :=
  Eval vm_compute in
    match reset ["R1"; "R2"; "U"; "R3"] empty_tree ∅ with
    | Ok (_, _, h) => h
    | Fatal _ => ∅
    end.

Example built_from_rowsets :
  reset ["R1"; "R2"; "U"; "R3"] empty_tree ∅ = Ok (Status_OK, built, built_heap).
Proof. vm_compute. reflexivity. Qed.

Example built_heap_entries : built_heap = {[0; 1; 2]}%nat.
Proof. vm_compute. reflexivity. Qed.

Example built_entries :
  map (loc string) (entries_ string built) = [on_heap 0; on_heap 1; on_heap 2]%nat.
Proof. reflexivity. Qed.

Example built_deleted : delete_RowSetTree string built built_heap = ∅.
Proof. vm_compute. reflexivity. Qed.

Example key_b : FindRowSetsWithKeyInRange true string "b" [] built = Ok ["U"; "R1"; "R2"].
Proof. reflexivity. Qed.

Example key_f : FindRowSetsWithKeyInRange true string "f" [] built = Ok ["U"; "R3"].
Proof. reflexivity. Qed.

Example key_z : FindRowSetsWithKeyInRange true string "z" [] built = Ok ["U"].
Proof. reflexivity. Qed.

Example interval_c_e :
  FindRowSetsIntersectingInterval true string "c" "e" "" [] built
  = Ok ["U"; "R1"; "R2"; "R3"].
Proof. reflexivity. Qed.

Example query_before_reset :
  FindRowSetsWithKeyInRange true string "b" [] empty_tree = Fatal "initted_".
Proof. reflexivity. Qed.

(** *** The theorems at these rowsets *)


Lemma Reset_bounds_errors_witness :
  initted_ string empty_tree = false /\
  reset ["R1"; "U"; "bad"; "R2"] empty_tree {[7%nat]}
    = Ok (mkStatus kIOError "cannot read bounds", empty_tree, {[7%nat]}) /\
  ok (mkStatus kIOError "cannot read bounds") = false /\
  IsNotSupported (mkStatus kIOError "cannot read bounds") = false.
Proof.
  split; [reflexivity|].
  exact (Reset_bounds_errors string bounds_of
           ["R1"; "U"; "bad"; "R2"] empty_tree {[7%nat]} eq_refl).
Defined.

Example reset_without_errors :
  exists this' h',
    reset ["U"; "R1"; "U"; "R3"] empty_tree ∅ = Ok (Status_OK, this', h') /\
    unbounded_rowsets_ string this' = ["U"; "U"].
Proof. eexists. eexists. split; vm_compute; reflexivity. Qed.

End SampleRowSets.

(** ** More runs of the consensus metadata *)

Module SampleMore.
Import PackedCache ConsensusMeta Sample.

Definition disk_Read (path : string) (d : Disk)
    : Status * ConsensusMetadataPB Config :=
  match List.find (fun f => String.eqb path (fst f)) d with
  | Some f => (Status_OK, snd f)
  | None => (mkStatus kIOError path, mkConsensusMetadataPB Config None None None)
  end.

Definition disk_FileExists (path : string) (d : Disk) : bool :=
  existsb (fun f => String.eqb path (fst f)) d.

#[local] Abbreviation create term create_mode :=
  (Create true 0 Config [] role_of verify (fun dir => "/data") flags Disk
     disk_CreateDirIfMissing disk_SyncDir disk_Write disk_GetFileSize
     disk_FileExists 0 fs "t1" "p1" voters term create_mode (Qmake 1 2)).

#[local] Abbreviation load :=
  (Load true Config [] role_of Disk disk_Read disk_GetFileSize 0 fs "t1" "p1").

(** A file written to the disk is read back. *)
Lemma disk_read_after_write (path : string) (pb : ConsensusMetadataPB Config)
    (create : PBCreateMode) (sync : PBSyncMode) (d : Disk) :
  ok (fst (disk_Write path pb create sync d)) = true ->
  let read := disk_Read path (snd (disk_Write path pb create sync d)) in
  ok (fst read) = true /\ snd read = pb.
Proof.
  intros _. unfold disk_Read, disk_Write. cbn.
  rewrite String.eqb_refl. split; reflexivity.
Qed.

(** The object [Create] makes at term 1, and the disk it leaves. *)
Definition created_at_1 : ConsensusMetadata Config :=
  Eval vm_compute in
    match fst (create 1 FLUSH_ON_CREATE empty_disk) with
    | Ok (_, Some cmeta) => cmeta
    | _ => fresh
    end.

Definition disk_after_create : World Config Disk :=
  Eval vm_compute in snd (create 1 FLUSH_ON_CREATE empty_disk).

Example create_at_1 :
  create 1 FLUSH_ON_CREATE empty_disk
  = (Ok (Status_OK, Some created_at_1), disk_after_create).
Proof. vm_compute. reflexivity. Qed.

Definition flushed_leader : ConsensusMetadata Config :=
  Eval vm_compute in
    match fst (flush OVERWRITE leader_at_5 empty_disk) with
    | Ok (_, this) => this
    | Fatal _ => fresh
    end.

Example flush_leader :
  flush OVERWRITE leader_at_5 empty_disk
  = (Ok (Status_OK, flushed_leader),
     snd (flush OVERWRITE leader_at_5 empty_disk)).
Proof. vm_compute. reflexivity. Qed.

Lemma set_voted_for_read_back_witness :
  "p2" <> "" /\
  exists this' this'',
    set_voted_for true Config "p2" fresh = Ok this' /\
    has_voted_for Config this' = true /\
    voted_for true Config this' = Ok "p2" /\
    clear_voted_for Config this' = Ok this'' /\
    has_voted_for Config this'' = false.
Proof.
  assert (Hne : "p2" <> "") by discriminate.
  split; [exact Hne|].
  destruct (set_voted_for_read_back true Config "p2" fresh Hne)
    as (this' & this'' & H1 & H2 & H3 & _ & _ & _ & _ & _ & H4 & H5 & _).
  exists this', this''. auto.
Defined.

Lemma voted_for_absent_witness :
  has_voted_for Config fresh = false /\
  voted_for true Config fresh = Fatal "pb_.has_voted_for()" /\
  set_voted_for true Config "" fresh = Fatal "!uuid.empty()".
Proof.
  split; [reflexivity|].
  exact (voted_for_absent true Config fresh eq_refl).
Defined.

Lemma pending_config_lifecycle_witness :
  (true = true -> pb_has_committed_config Config (pb_ Config leader_at_5) = true) /\
  exists this1 this2,
    set_pending_config true Config [] role_of ["p2"; "p3"] leader_at_5 = Ok this1 /\
    ActiveConfig true Config [] this1 = Ok ["p2"; "p3"] /\
    clear_pending_config true Config [] role_of this1 = Ok this2 /\
    ActiveConfig true Config [] this2 = Ok voters /\
    PendingConfig true Config [] this2 = Fatal "There is no pending config".
Proof.
  split; [reflexivity|].
  destruct (pending_config_lifecycle true Config [] role_of ["p2"; "p3"]
              leader_at_5 (fun _ => eq_refl))
    as (this1 & this2 & H1 & _ & H2 & _ & _ & _ & H3 & _ & H4 & H5 & _).
  exists this1, this2.
  repeat split; [exact H1 | exact H2 | exact H3 | exact H4 | exact H5].
Defined.

Definition after_leader_change : ConsensusMetadata Config :=
  Eval vm_compute in
    value (run [call_set_leader_uuid Config "p1";
                call_set_current_term Config 9] voted_at_3).

Lemma role_derived_kept_witness :
  run [call_set_leader_uuid Config "p1"; call_set_current_term Config 9]
    voted_at_3 = Ok after_leader_change /\
  role_derived Config [] role_of after_leader_change /\
  active_role Config after_leader_change = 1.
Proof.
  split; [reflexivity|]. split; [|reflexivity].
  apply (role_derived_kept true 0 Config [] role_of voted_at_3
           [call_set_leader_uuid Config "p1"; call_set_current_term Config 9]
           after_leader_change).
  - reflexivity.
  - right. eexists. eexists. split; [reflexivity | exact I].
Defined.

Lemma mutators_keep_identity_witness :
  run leading fresh = Ok leader_at_5 /\
  fs_manager_ Config leader_at_5 = fs_manager_ Config fresh /\
  tablet_id_ Config leader_at_5 = tablet_id_ Config fresh /\
  peer_uuid_ Config leader_at_5 = peer_uuid_ Config fresh /\
  flush_count_for_tests_ Config leader_at_5 = flush_count_for_tests_ Config fresh /\
  on_disk_size_ Config leader_at_5 = on_disk_size_ Config fresh.
Proof.
  split; [reflexivity|].
  apply (mutators_keep_identity true 0 Config [] role_of leading fresh
           leader_at_5).
  reflexivity.
Defined.

Lemma MergeCommittedConsensusStatePB_idempotent_witness :
  (true = true -> Merge_dchecks 0 Config other_at_7 voted_at_3 = true) /\
  exists this',
    MergeCommittedConsensusStatePB true 0 Config [] role_of other_at_7 voted_at_3
      = Ok this' /\
    MergeCommittedConsensusStatePB true 0 Config [] role_of other_at_7 this'
      = Ok this'.
Proof.
  split; [reflexivity|].
  apply (MergeCommittedConsensusStatePB_idempotent true 0 Config [] role_of
           other_at_7 voted_at_3).
  reflexivity.
Defined.


(** In a build without DCHECKs, an object without a committed config gets
    the default one from its own snapshot. *)
Example release_snapshot_gains_default_config :
  committed_config_ Config (pb_ Config fresh) = None /\
  (cstate ← ToConsensusStatePB false Config [] fresh;
   this' ← MergeCommittedConsensusStatePB false 0 Config [] role_of cstate fresh;
   mret (committed_config_ Config (pb_ Config this')))
  = Ok (Some []).
Proof. split; vm_compute; reflexivity. Qed.

Lemma Flush_keeps_state_witness :
  flush OVERWRITE leader_at_5 empty_disk
  = (Ok (Status_OK, flushed_leader),
     snd (flush OVERWRITE leader_at_5 empty_disk)) /\
  flush_count_for_tests_ Config flushed_leader = 1 /\
  pb_ Config flushed_leader = pb_ Config leader_at_5 /\
  role_and_term_cache_ Config flushed_leader
    = role_and_term_cache_ Config leader_at_5.
Proof.
  split; [exact flush_leader|].
  destruct (Flush_keeps_state Config [] verify (fun dir => "/data") flags Disk
              disk_CreateDirIfMissing disk_SyncDir disk_Write disk_GetFileSize
              OVERWRITE (Qmake 1 2) leader_at_5 flushed_leader Status_OK
              empty_disk (snd (flush OVERWRITE leader_at_5 empty_disk))
              flush_leader)
    as (H1 & H2 & _ & _ & _ & _ & H3 & _).
  auto.
Defined.

Lemma Create_without_flush_witness :
  (true = true -> 0 <= 1) /\
  exists s cmeta_out,
    create 1 NO_FLUSH_ON_CREATE disk_after_create
    = (Ok (s, cmeta_out),
       mkWorld Config Disk (w_env Config Disk disk_after_create)
         (w_calls Config Disk disk_after_create
            ++ [CallFileExists Config "/data/consensus-meta/t1"])) /\
    code s = kAlreadyPresent /\
    message s = "File /data/consensus-meta/t1 already exists" /\
    cmeta_out = None.
Proof.
  assert (Hterm : true = true -> 0 <= 1) by (intros _; lia).
  split; [exact Hterm|].
  exact (Create_without_flush true 0 Config [] role_of verify
           (fun dir => "/data") flags Disk disk_CreateDirIfMissing disk_SyncDir
           disk_Write disk_GetFileSize disk_FileExists 0 fs "t1" "p1" voters 1
           (Qmake 1 2) disk_after_create Hterm).
Defined.

Lemma Create_returns_object_witness :
  create 1 FLUSH_ON_CREATE empty_disk
  = (Ok (Status_OK, Some created_at_1), disk_after_create) /\
  pb_ Config created_at_1 = mkConsensusMetadataPB Config (Some voters) (Some 1) None /\
  active_role Config created_at_1 = role_of "p1" "" voters /\
  flush_count_for_tests_ Config created_at_1 = 1.
Proof.
  split; [exact create_at_1|].
  destruct (Create_returns_object true 0 Config [] role_of verify
              (fun dir => "/data") flags Disk disk_CreateDirIfMissing
              disk_SyncDir disk_Write disk_GetFileSize disk_FileExists 0 fs
              "t1" "p1" voters 1 FLUSH_ON_CREATE (Qmake 1 2) Status_OK
              created_at_1 empty_disk disk_after_create create_at_1)
    as (_ & H1 & _ & _ & H2 & _ & _ & _ & _ & H3).
  auto.
Defined.

Lemma Load_result_witness :
  (true = true ->
   ok (fst (disk_Read "/data/consensus-meta/t1"
              (w_env Config Disk disk_after_create))) = true ->
   pb_has_committed_config Config
     (snd (disk_Read "/data/consensus-meta/t1"
             (w_env Config Disk disk_after_create))) = true) /\
  exists cmeta w',
    load disk_after_create = (Ok (Status_OK, Some cmeta), w') /\
    pb_ Config cmeta = pb_ Config created_at_1 /\
    has_pending_config Config cmeta = false /\
    flush_count_for_tests_ Config cmeta = 0.
Proof.
  split; [reflexivity|].
  destruct (Load_result true Config [] role_of Disk disk_Read disk_GetFileSize
              0 fs "t1" "p1" disk_after_create (fun _ _ => eq_refl))
    as (s & cmeta_out & w' & Hload & Hs & cmeta & Hout & Hpb & Hp & _ & _ & _
        & _ & Hcount & _).
  exists cmeta, w'. rewrite Hload, Hs, Hout.
  repeat split; [exact Hpb | exact Hp | exact Hcount].
Defined.

Lemma Create_then_Load_witness :
  (forall path pb create sync d,
     ok (fst (disk_Write path pb create sync d)) = true ->
     let read := disk_Read path (snd (disk_Write path pb create sync d)) in
     ok (fst read) = true /\ snd read = pb) /\
  create 1 FLUSH_ON_CREATE empty_disk
  = (Ok (Status_OK, Some created_at_1), disk_after_create) /\
  exists w2,
    load disk_after_create
    = (Ok (Status_OK, Some (with_flush_count Config 0 created_at_1)), w2) /\
    w_env Config Disk w2 = w_env Config Disk disk_after_create.
Proof.
  split; [exact disk_read_after_write|]. split; [exact create_at_1|].
  exact (Create_then_Load true 0 Config [] role_of verify (fun dir => "/data")
           flags Disk disk_CreateDirIfMissing disk_SyncDir disk_Write disk_Read
           disk_GetFileSize disk_FileExists 0 0 fs "t1" "p1" voters 1
           (Qmake 1 2) Status_OK created_at_1 empty_disk disk_after_create
           disk_read_after_write create_at_1).
Defined.

End SampleMore.

(** ** More runs of the rowset tree *)

Module SampleRowSetsMore.
Import RowSetTree SampleRowSets.

Lemma Reset_once_witness :
  reset ["R1"; "R2"; "U"; "R3"] empty_tree ∅ = Ok (Status_OK, built, built_heap) /\
  forall rowsets2 h2, Reset string bounds_of rowsets2 built h2 = Fatal "!initted_".
Proof.
  split; [exact built_from_rowsets|].
  exact (Reset_once string bounds_of ["R1"; "R2"; "U"; "R3"] empty_tree built
           ∅ built_heap Status_OK built_from_rowsets).
Defined.

Lemma Reset_then_delete_witness :
  entries_ string empty_tree = [] /\
  reset ["R1"; "R2"; "U"; "R3"] empty_tree ∅ = Ok (Status_OK, built, built_heap) /\
  built_heap = ∅ ∪ addresses string (entries_ string built) /\
  delete_RowSetTree string built built_heap = ∅.
Proof.
  split; [reflexivity|]. split; [exact built_from_rowsets|].
  destruct (Reset_then_delete string bounds_of ["R1"; "R2"; "U"; "R3"]
              empty_tree built ∅ built_heap eq_refl built_from_rowsets)
    as (Hheap & _ & _ & Hdelete).
  split; [exact Hheap | exact Hdelete].
Defined.

Lemma point_query_is_interval_query_witness :
  reset ["R1"; "R2"; "U"; "R3"] empty_tree ∅ = Ok (Status_OK, built, built_heap) /\
  exists found1 found2,
    FindRowSetsWithKeyInRange true string "b" ["R9"] built
      = Ok (["R9"] ++ found1)%list /\
    FindRowSetsIntersectingInterval true string "b" "b" "" ["R9"] built
      = Ok (["R9"] ++ found2)%list /\
    Permutation found1 found2.
Proof.
  split; [exact built_from_rowsets|].
  exact (point_query_is_interval_query true string bounds_of
           ["R1"; "R2"; "U"; "R3"] empty_tree built ∅ built_heap "b" ""
           ["R9"] built_from_rowsets).
Defined.

Lemma interval_query_monotone_witness :
  reset ["R1"; "R2"; "U"; "R3"] empty_tree ∅ = Ok (Status_OK, built, built_heap) /\
  key_le "c" "c" = true /\
  key_le "b" "c" = true /\
  key_le "c" "e" = true /\
  FindRowSetsIntersectingInterval true string "c" "c" "" [] built
    = Ok ["U"; "R1"; "R2"] /\
  FindRowSetsIntersectingInterval true string "b" "e" "" [] built
    = Ok ["U"; "R1"; "R2"; "R3"] /\
  forall rs, In rs ["U"; "R1"; "R2"] -> In rs ["U"; "R1"; "R2"; "R3"].
Proof.
  split; [exact built_from_rowsets|].
  split; [reflexivity|]. split; [reflexivity|]. split; [reflexivity|].
  split; [reflexivity|]. split; [reflexivity|].
  exact (interval_query_monotone true string bounds_of
           ["R1"; "R2"; "U"; "R3"] empty_tree built ∅ built_heap
           "c" "c" "b" "e" "" "" ["U"; "R1"; "R2"] ["U"; "R1"; "R2"; "R3"]
           built_from_rowsets eq_refl eq_refl eq_refl eq_refl eq_refl).
Defined.

Lemma unbounded_rowsets_first_witness :
  reset ["R1"; "R2"; "U"; "R3"] empty_tree ∅ = Ok (Status_OK, built, built_heap) /\
  (exists rest,
     FindRowSetsWithKeyInRange true string "f" ["R9"] built
       = Ok (["R9"] ++ ["U"] ++ rest)%list /\
     Forall (fun rs => is_bounded string bounds_of rs = true) rest) /\
  (exists rest,
     FindRowSetsIntersectingInterval true string "c" "e" "" ["R9"] built
       = Ok (["R9"] ++ ["U"] ++ rest)%list /\
     Forall (fun rs => is_bounded string bounds_of rs = true) rest).
Proof.
  split; [exact built_from_rowsets|].
  exact (unbounded_rowsets_first true string bounds_of
           ["R1"; "R2"; "U"; "R3"] empty_tree built ∅ built_heap "f" "c" "e" ""
           ["R9"] built_from_rowsets).
Defined.

End SampleRowSetsMore.
